(** * Ocean Notes: the persistence layer and the debounced save scheduler

    A shallow embedding of [services/api.js] (the dual-mode data-access
    layer: [lsReadAll], [lsWriteAll], [normalize], [fetchNotes],
    [fetchNote], [createNote], [updateNote], [deleteNote]) and of
    [utils.js] ([debounce]), with the properties of the specification
    stated and proved over it, followed by the choice of the backend
    address, the list updates of the handlers of [App.js] and further
    properties of the code.

    The JavaScript platform the code calls into is modelled as follows.
    - A string is the list of its UTF-16 code units ([jstr]).
    - A number is [NaN], an infinity, or an exact decimal [m * 10^e];
      rounding to binary64 is not modelled.  The program never computes
      with numbers: it tests them for truthiness, compares them with
      [===] and writes them back.
    - Values are the JSON-like data a caller can pass or a store can
      hold: [undefined], [null], booleans, numbers, strings, arrays and
      plain objects.  An object is an association list in insertion
      order; setting a property keeps the list free of repeated keys and
      a lookup takes the last binding.  The engine lists integer-like
      keys first; that order shows in no property read and is left out.
    - [localStorage] is a finite map from keys to strings; its calls do
      not throw (no quota, no security error).
    - [JSON.stringify] and [JSON.parse] are a printer and a parser over
      code units, for the full JSON grammar.
    - A function that throws returns [Throw]; an [async] function settles
      its promise with what its body returns or throws.
    - The clock ([new Date()]), [Math.random] and the network ([fetch])
      are inputs of each call; [Date.parse] beyond what is fixed by the
      language is a parameter.
    - Timers live in a queue with logical time: [setTimeout] enqueues,
      [clearTimeout] removes, and the event loop fires what is due. *)

From Stdlib Require Import ZArith NArith String Ascii List Bool Lia.
From Stdlib Require DecimalN DecimalPos DecimalFacts.
From stdpp Require Import gmap list.

(** ** Strings *)

Definition jstr : Type := list N.

(** The code units of an ASCII literal. *)
Definition js (s : string) : jstr :=
  List.map N_of_ascii (list_ascii_of_string s).

(** The same, with every apostrophe standing for a double quote: the
    way JSON texts are written in the examples. *)
Definition json_text (s : string) : jstr :=
  List.map (fun c => if (c =? 39)%N then 34%N else c) (js s).

Definition is_empty (s : jstr) : bool :=
  match s with [] => true | _ :: _ => false end.

Fixpoint jstr_eqb (a b : jstr) : bool :=
  match a, b with
  | [], [] => true
  | x :: a', y :: b' => N.eqb x y && jstr_eqb a' b'
  | _, _ => false
  end.

(** ** Numbers and values *)

Inductive number : Type :=
| NaN
| Infinity (negative : bool)
| Dec (m e : Z).

Unset Elimination Schemes.
Inductive value : Type :=
| VUndefined
| VNull
| VBool (b : bool)
| VNum (n : number)
| VStr (s : jstr)
| VArr (elems : list value)
| VObj (props : list (jstr * value)).
Set Elimination Schemes.

Inductive error : Type :=
| TypeError
| RangeError
| Error (message : jstr)
| HttpError (action : jstr) (item : option value) (status : Z).

Inductive result (A : Type) : Type :=
| Ok (a : A)
| Throw (e : error).
Arguments Ok {A} a.
Arguments Throw {A} e.

Definition bind {A B} (r : result A) (k : A -> result B) : result B :=
  match r with
  | Ok a => k a
  | Throw e => Throw e
  end.

Notation "'do' x <- r ; k" := (bind r (fun x => k))
  (at level 10, x name, r at level 100, k at level 200).

(** [ToBoolean]. *)
Definition truthy (v : value) : bool :=
  match v with
  | VUndefined | VNull => false
  | VBool b => b
  | VNum NaN => false
  | VNum (Infinity _) => true
  | VNum (Dec m _) => negb (m =? 0)%Z
  | VStr s => negb (is_empty s)
  | VArr _ | VObj _ => true
  end.

(** [a || b]. *)
Definition or_else (a b : value) : value := if truthy a then a else b.

(** Numeric equality of [m1 * 10^e1] and [m2 * 10^e2]. *)
Definition dec_eqb (m1 e1 m2 e2 : Z) : bool :=
  let e := Z.min e1 e2 in
  (m1 * 10 ^ (e1 - e) =? m2 * 10 ^ (e2 - e))%Z.

Definition number_eqb (a b : number) : bool :=
  match a, b with
  | Infinity s, Infinity s' => Bool.eqb s s'
  | Dec m1 e1, Dec m2 e2 => dec_eqb m1 e1 m2 e2
  | _, _ => false
  end.

(** [a === b].  Arrays and objects are compared by reference; wherever
    the program compares, one side was just built by [JSON.parse] and the
    other comes from the caller, so two of them are never the same
    reference. *)
Definition strict_eq (a b : value) : bool :=
  match a, b with
  | VUndefined, VUndefined => true
  | VNull, VNull => true
  | VBool x, VBool y => Bool.eqb x y
  | VNum x, VNum y => number_eqb x y
  | VStr x, VStr y => jstr_eqb x y
  | _, _ => false
  end.

(** ** Objects *)

(** The value bound to [k]: the last binding wins. *)
Fixpoint lookup_prop (ps : list (jstr * value)) (k : jstr) : option value :=
  match ps with
  | [] => None
  | (k', v) :: ps' =>
      match lookup_prop ps' k with
      | Some x => Some x
      | None => if jstr_eqb k' k then Some v else None
      end
  end.

Definition has_prop (ps : list (jstr * value)) (k : jstr) : bool :=
  match lookup_prop ps k with Some _ => true | None => false end.

(** [o[k] = v]: an existing key keeps its place, a new key goes last. *)
Definition set_prop (ps : list (jstr * value)) (k : jstr) (v : value)
  : list (jstr * value) :=
  if has_prop ps k
  then List.map (fun p => if jstr_eqb (fst p) k then (fst p, v) else p) ps
  else ps ++ [(k, v)].

Definition set_props (ps qs : list (jstr * value)) : list (jstr * value) :=
  fold_left (fun o p => set_prop o (fst p) (snd p)) qs ps.

(** [v.k] for the property names the program reads ([id], [title],
    [content], [updatedAt]): none of them exists on a primitive, on an
    array or on [Object.prototype]. *)
Definition get (v : value) (k : jstr) : result value :=
  match v with
  | VUndefined | VNull => Throw TypeError
  | VObj ps =>
      Ok (match lookup_prop ps k with Some x => x | None => VUndefined end)
  | _ => Ok VUndefined
  end.

(** Decimal digits of a natural number. *)
Fixpoint uint_chars (u : Decimal.uint) : jstr :=
  match u with
  | Decimal.Nil => []
  | Decimal.D0 u' => 48%N :: uint_chars u'
  | Decimal.D1 u' => 49%N :: uint_chars u'
  | Decimal.D2 u' => 50%N :: uint_chars u'
  | Decimal.D3 u' => 51%N :: uint_chars u'
  | Decimal.D4 u' => 52%N :: uint_chars u'
  | Decimal.D5 u' => 53%N :: uint_chars u'
  | Decimal.D6 u' => 54%N :: uint_chars u'
  | Decimal.D7 u' => 55%N :: uint_chars u'
  | Decimal.D8 u' => 56%N :: uint_chars u'
  | Decimal.D9 u' => 57%N :: uint_chars u'
  end.

Definition digits (n : N) : jstr := uint_chars (N.to_uint n).

Fixpoint indexed {A} (f : A -> value) (i : N) (l : list A)
  : list (jstr * value) :=
  match l with
  | [] => []
  | x :: l' => (digits i, f x) :: indexed f (N.succ i) l'
  end.

(** The own enumerable properties copied by a spread [...v]. *)
Definition own_props (v : value) : list (jstr * value) :=
  match v with
  | VObj ps => ps
  | VStr s => indexed (fun c => VStr [c]) 0%N s
  | VArr l => indexed (fun x => x) 0%N l
  | _ => []
  end.

(** [{ ...o, ...v }] continued from the properties [ps] set so far. *)
Definition spread (ps : list (jstr * value)) (v : value)
  : list (jstr * value) :=
  set_props ps (own_props v).

(** ** JSON.stringify *)

Definition lit_null : jstr := Eval cbv in js "null".
Definition lit_true : jstr := Eval cbv in js "true".
Definition lit_false : jstr := Eval cbv in js "false".

Definition hex_digit (d : N) : N :=
  if (d <? 10)%N then (48 + d)%N else (87 + d)%N.

(** One code unit inside a string literal.  Which escape is chosen for a
    code unit is invisible to the program, which reads the text back only
    through [JSON.parse]. *)
Definition escape (c : N) : jstr :=
  if (c =? 34)%N then [92; 34]%N
  else if (c =? 92)%N then [92; 92]%N
  else if (c =? 8)%N then [92; 98]%N
  else if (c =? 12)%N then [92; 102]%N
  else if (c =? 10)%N then [92; 110]%N
  else if (c =? 13)%N then [92; 114]%N
  else if (c =? 9)%N then [92; 116]%N
  else if (c <? 32)%N
       then [92; 117; 48; 48; hex_digit (c / 16); hex_digit (c mod 16)]%N
  else [c].

Fixpoint quote_chars (s : jstr) : jstr :=
  match s with
  | [] => [34%N]
  | c :: s' => escape c ++ quote_chars s'
  end.

Definition quote (s : jstr) : jstr := 34%N :: quote_chars s.

Definition ser_Z (z : Z) : jstr :=
  if (z <? 0)%Z then 45%N :: digits (Z.abs_N z) else digits (Z.abs_N z).

(** A finite number is written as its mantissa, followed by [e] and the
    exponent when that is not zero; the engine's choice between [1.5] and
    [15e-1] denotes the same number. *)
Definition ser_number (n : number) : jstr :=
  match n with
  | NaN | Infinity _ => lit_null
  | Dec m e => if (e =? 0)%Z then ser_Z m else ser_Z m ++ 101%N :: ser_Z e
  end.

Fixpoint join (l : list jstr) : jstr :=
  match l with
  | [] => []
  | [a] => a
  | a :: l' => a ++ 44%N :: join l'
  end.

(** The members of an object that are written: a property whose value is
    [undefined] is skipped. *)
Definition ser_members (ser : value -> jstr) : list (jstr * value) -> list jstr :=
  fix go ps :=
    match ps with
    | [] => []
    | (k, VUndefined) :: ps' => go ps'
    | (k, x) :: ps' => (quote k ++ 58%N :: ser x) :: go ps'
    end.

Fixpoint ser (v : value) : jstr :=
  match v with
  | VUndefined | VNull => lit_null
  | VBool true => lit_true
  | VBool false => lit_false
  | VNum n => ser_number n
  | VStr s => quote s
  | VArr l => 91%N :: join (List.map ser l) ++ [93%N]
  | VObj ps => 123%N :: join (ser_members ser ps) ++ [125%N]
  end.

(** [JSON.stringify(v)]: [None] stands for the result [undefined]. *)
Definition JSON_stringify (v : value) : option jstr :=
  match v with
  | VUndefined => None
  | _ => Some (ser v)
  end.

(** ** JSON.parse *)

Definition is_ws (c : N) : bool :=
  (c =? 32)%N || (c =? 9)%N || (c =? 10)%N || (c =? 13)%N.

Fixpoint skip_ws (s : jstr) : jstr :=
  match s with
  | [] => []
  | c :: s' => if is_ws c then skip_ws s' else s
  end.

Definition digit_of (c : N) : option (Decimal.uint -> Decimal.uint) :=
  if (c =? 48)%N then Some Decimal.D0
  else if (c =? 49)%N then Some Decimal.D1
  else if (c =? 50)%N then Some Decimal.D2
  else if (c =? 51)%N then Some Decimal.D3
  else if (c =? 52)%N then Some Decimal.D4
  else if (c =? 53)%N then Some Decimal.D5
  else if (c =? 54)%N then Some Decimal.D6
  else if (c =? 55)%N then Some Decimal.D7
  else if (c =? 56)%N then Some Decimal.D8
  else if (c =? 57)%N then Some Decimal.D9
  else None.

(** The longest run of digits at the head of [s], and what follows it. *)
Fixpoint take_digits (s : jstr) : Decimal.uint * jstr :=
  match s with
  | [] => (Decimal.Nil, [])
  | c :: s' =>
      match digit_of c with
      | Some d => let (u, r) := take_digits s' in (d u, r)
      | None => (Decimal.Nil, s)
      end
  end.

(** The integer part of a number: [0], or digits that do not start with
    [0]. *)
Definition int_part_ok (u : Decimal.uint) : bool :=
  match u with
  | Decimal.Nil => false
  | Decimal.D0 Decimal.Nil => true
  | Decimal.D0 _ => false
  | _ => true
  end.

Definition uint_nonempty (u : Decimal.uint) : bool :=
  match u with Decimal.Nil => false | _ => true end.

Definition Z_of_uint (negative : bool) (u : Decimal.uint) : Z :=
  if negative then (- Z.of_N (N.of_uint u))%Z else Z.of_N (N.of_uint u).

Definition parse_fraction (s : jstr) : option (Decimal.uint * jstr) :=
  match s with
  | 46%N :: r =>
      let (f, r') := take_digits r in
      if uint_nonempty f then Some (f, r') else None
  | _ => Some (Decimal.Nil, s)
  end.

(** An optional minus sign; the exponent may also carry a plus sign. *)
Definition take_sign (s : jstr) : bool * jstr :=
  match s with
  | c :: r => if (c =? 45)%N then (true, r) else (false, s)
  | [] => (false, s)
  end.

Definition take_exp_sign (s : jstr) : bool * jstr :=
  match s with
  | c :: r =>
      if (c =? 45)%N then (true, r)
      else if (c =? 43)%N then (false, r)
      else (false, s)
  | [] => (false, s)
  end.

Definition parse_exponent (s : jstr) : option (Z * jstr) :=
  match s with
  | c :: r =>
      if (c =? 101)%N || (c =? 69)%N then
        let (negative, r1) := take_exp_sign r in
        let (x, r2) := take_digits r1 in
        if uint_nonempty x then Some (Z_of_uint negative x, r2) else None
      else Some (0%Z, s)
  | [] => Some (0%Z, s)
  end.

Definition parse_number (s : jstr) : option (number * jstr) :=
  let (negative, s1) := take_sign s in
  let (ip, s2) := take_digits s1 in
  if int_part_ok ip then
    '(fp, s3) ← parse_fraction s2;
    '(x, s4) ← parse_exponent s3;
    Some (Dec (Z_of_uint negative (Decimal.app ip fp))
              (x - Z.of_nat (Decimal.nb_digits fp)), s4)
  else None.

Definition hex_val (c : N) : option N :=
  if (48 <=? c)%N && (c <=? 57)%N then Some (c - 48)%N
  else if (97 <=? c)%N && (c <=? 102)%N then Some (c - 87)%N
  else if (65 <=? c)%N && (c <=? 70)%N then Some (c - 55)%N
  else None.

Definition unescape (c : N) : option N :=
  if (c =? 34)%N || (c =? 92)%N || (c =? 47)%N then Some c
  else if (c =? 98)%N then Some 8%N
  else if (c =? 102)%N then Some 12%N
  else if (c =? 110)%N then Some 10%N
  else if (c =? 114)%N then Some 13%N
  else if (c =? 116)%N then Some 9%N
  else None.

(** The characters of a string literal after its opening quote, up to and
    including the closing one. *)
Fixpoint parse_string (s : jstr) : option (jstr * jstr) :=
  match s with
  | [] => None
  | c :: r =>
      if (c =? 34)%N then Some ([], r)
      else if (c =? 92)%N then
        match r with
        | [] => None
        | e :: r1 =>
            if (e =? 117)%N then
              match r1 with
              | h1 :: h2 :: h3 :: h4 :: r2 =>
                  a ← hex_val h1; b ← hex_val h2;
                  c' ← hex_val h3; d ← hex_val h4;
                  '(str, rest) ← parse_string r2;
                  Some ((((a * 16 + b) * 16 + c') * 16 + d)%N :: str, rest)
              | _ => None
              end
            else
              u ← unescape e;
              '(str, rest) ← parse_string r1;
              Some (u :: str, rest)
        end
      else if (c <? 32)%N then None
      else '(str, rest) ← parse_string r; Some (c :: str, rest)
  end.

Fixpoint expect (w s : jstr) : option jstr :=
  match w, s with
  | [], _ => Some s
  | a :: w', b :: s' => if (a =? b)%N then expect w' s' else None
  | _ :: _, [] => None
  end.

Fixpoint parse_value (fuel : nat) (s : jstr) : option (value * jstr) :=
  match fuel with
  | O => None
  | S fuel' =>
      match skip_ws s with
      | [] => None
      | c :: r =>
          if (c =? 110)%N then r' ← expect lit_null (c :: r); Some (VNull, r')
          else if (c =? 116)%N then
            r' ← expect lit_true (c :: r); Some (VBool true, r')
          else if (c =? 102)%N then
            r' ← expect lit_false (c :: r); Some (VBool false, r')
          else if (c =? 34)%N then
            '(str, r') ← parse_string r; Some (VStr str, r')
          else if (c =? 91)%N then
            match skip_ws r with
            | [] => None
            | c' :: r' =>
                if (c' =? 93)%N then Some (VArr [], r')
                else '(l, r'') ← parse_elements fuel' r; Some (VArr l, r'')
            end
          else if (c =? 123)%N then
            match skip_ws r with
            | [] => None
            | c' :: r' =>
                if (c' =? 125)%N then Some (VObj [], r')
                else '(ps, r'') ← parse_members fuel' r;
                     Some (VObj (set_props [] ps), r'')
            end
          else '(n, r') ← parse_number (c :: r); Some (VNum n, r')
      end
  end
with parse_elements (fuel : nat) (s : jstr) : option (list value * jstr) :=
  match fuel with
  | O => None
  | S fuel' =>
      '(v, r) ← parse_value fuel' s;
      match skip_ws r with
      | [] => None
      | c :: r' =>
          if (c =? 44)%N then
            '(l, r'') ← parse_elements fuel' r'; Some (v :: l, r'')
          else if (c =? 93)%N then Some ([v], r')
          else None
      end
  end
with parse_members (fuel : nat) (s : jstr)
  : option (list (jstr * value) * jstr) :=
  match fuel with
  | O => None
  | S fuel' =>
      match skip_ws s with
      | [] => None
      | q :: r =>
          if (q =? 34)%N then
            '(k, r1) ← parse_string r;
            match skip_ws r1 with
            | [] => None
            | c1 :: r2 =>
                if (c1 =? 58)%N then
                  '(v, r3) ← parse_value fuel' r2;
                  match skip_ws r3 with
                  | [] => None
                  | c3 :: r4 =>
                      if (c3 =? 44)%N then
                        '(ps, r5) ← parse_members fuel' r4;
                        Some ((k, v) :: ps, r5)
                      else if (c3 =? 125)%N then Some ([(k, v)], r4)
                      else None
                  end
                else None
            end
          else None
      end
  end.

(** [JSON.parse(s)]: [None] when it throws a [SyntaxError]. *)
Definition JSON_parse (s : jstr) : option value :=
  '(v, r) ← parse_value (2 * length s + 2) s;
  if is_empty (skip_ws r) then Some v else None.

(** What a value has become once written by [JSON.stringify] and read by
    [JSON.parse]. *)
Definition json_members (f : value -> value)
  : list (jstr * value) -> list (jstr * value) :=
  fix go ps :=
    match ps with
    | [] => []
    | (k, VUndefined) :: ps' => go ps'
    | (k, x) :: ps' => (k, f x) :: go ps'
    end.

Fixpoint jsonify (v : value) : value :=
  match v with
  | VUndefined => VNull
  | VNum NaN | VNum (Infinity _) => VNull
  | VArr l => VArr (List.map jsonify l)
  | VObj ps => VObj (set_props [] (json_members jsonify ps))
  | _ => v
  end.

(** ** Dates *)

Local Open Scope Z_scope.

(** A time value is a number of milliseconds since the epoch; a [Date]
    object holds one, or is invalid ([None]). *)
Definition max_time : Z := 8640000000000000.

Definition time_valid (t : Z) : bool :=
  (- max_time <=? t) && (t <=? max_time).

Definition time_clip (t : Z) : option Z :=
  if time_valid t then Some t else None.

Definition ms_per_day : Z := 86400000.

(** Year, month and day of a number of days since the epoch, in the
    proleptic Gregorian calendar. *)
Definition civil_from_days (days : Z) : Z * Z * Z :=
  let z := days + 719468 in
  let era := z / 146097 in
  let doe := z - era * 146097 in
  let yoe := (doe - doe / 1460 + doe / 36524 - doe / 146096) / 365 in
  let doy := doe - (365 * yoe + yoe / 4 - yoe / 100) in
  let mp := (5 * doy + 2) / 153 in
  let d := doy - (153 * mp + 2) / 5 + 1 in
  let m := if mp <? 10 then mp + 3 else mp - 9 in
  let y := yoe + era * 400 + (if m <=? 2 then 1 else 0) in
  (y, m, d).

Definition digit_char (d : Z) : N := Z.to_N (48 + d).

Definition pad2 (n : Z) : jstr := [digit_char (n / 10); digit_char (n mod 10)].

Definition pad3 (n : Z) : jstr := digit_char (n / 100) :: pad2 (n mod 100).

Definition pad4 (n : Z) : jstr := pad2 (n / 100) ++ pad2 (n mod 100).

Definition pad6 (n : Z) : jstr := pad2 (n / 10000) ++ pad4 (n mod 10000).

Definition year_chars (y : Z) : jstr :=
  if (0 <=? y) && (y <=? 9999) then pad4 y
  else (if y <? 0 then 45%N else 43%N) :: pad6 (Z.abs y).

(** [YYYY-MM-DDTHH:mm:ss.sssZ], with a sign and six digits for a year
    outside 0..9999. *)
Definition iso_of_time (t : Z) : jstr :=
  let '(y, m, d) := civil_from_days (t / ms_per_day) in
  let ms := t mod ms_per_day in
  year_chars y ++ 45%N :: pad2 m ++ 45%N :: pad2 d ++ 84%N ::
  pad2 (ms / 3600000) ++ 58%N :: pad2 (ms / 60000 mod 60) ++ 58%N ::
  pad2 (ms / 1000 mod 60) ++ 46%N :: pad3 (ms mod 1000) ++ [90%N].

(** [d.toISOString()]. *)
Definition toISOString (d : option Z) : result jstr :=
  match d with
  | Some t => Ok (iso_of_time t)
  | None => Throw RangeError
  end.

(** [ToIntegerOrInfinity] of a finite number. *)
Definition dec_trunc (m e : Z) : Z :=
  if 0 <=? e then m * 10 ^ e else Z.quot m (10 ^ (- e)).

(** Reading the format back: the day number of a calendar date, and the
    time value a string in the format of [toISOString] denotes.  A string
    is accepted only if its fields are in range and make a date of the
    calendar (the day number of the date is that of no other date). *)
Definition days_from_civil (y m d : Z) : Z :=
  let y' := if m <=? 2 then y - 1 else y in
  let era := y' / 400 in
  let yoe := y' - era * 400 in
  let mp := if m <=? 2 then m + 9 else m - 3 in
  let doy := (153 * mp + 2) / 5 + d - 1 in
  let doe := yoe * 365 + yoe / 4 - yoe / 100 + doy in
  era * 146097 + doe - 719468.

Definition is_digit (c : N) : bool := ((48 <=? c) && (c <=? 57))%N.

Fixpoint digits_val (acc : Z) (s : jstr) : option Z :=
  match s with
  | [] => Some acc
  | c :: s' =>
      if is_digit c then digits_val (acc * 10 + Z.of_N (c - 48)) s' else None
  end.

Definition civil_eqb (a b : Z * Z * Z) : bool :=
  let '(y, m, d) := a in
  let '(y', m', d') := b in
  (y =? y') && (m =? m') && (d =? d').

(** The time value of [-MM-DDTHH:mm:ss.sssZ] in the year [y]. *)
Definition iso_time_in (y : Z) (s : jstr) : option Z :=
  match s with
  | [c1; m1; m2; c2; d1; d2; cT; h1; h2; c3; n1; n2; c4; s1; s2; c5;
     f1; f2; f3; cZ] =>
      if ((c1 =? 45) && (c2 =? 45) && (cT =? 84) && (c3 =? 58) &&
          (c4 =? 58) && (c5 =? 46) && (cZ =? 90))%N
      then
        m ← digits_val 0 [m1; m2];
        d ← digits_val 0 [d1; d2];
        h ← digits_val 0 [h1; h2];
        mi ← digits_val 0 [n1; n2];
        sec ← digits_val 0 [s1; s2];
        ms ← digits_val 0 [f1; f2; f3];
        if (1 <=? m) && (m <=? 12) && (1 <=? d) && (d <=? 31) &&
           (h <=? 23) && (mi <=? 59) && (sec <=? 59) &&
           civil_eqb (civil_from_days (days_from_civil y m d)) (y, m, d)
        then Some (days_from_civil y m d * ms_per_day +
                   h * 3600000 + mi * 60000 + sec * 1000 + ms)
        else None
      else None
  | _ => None
  end.

Definition iso_time (s : jstr) : option Z :=
  match s with
  | y1 :: y2 :: y3 :: y4 :: r =>
      if is_digit y1 then
        y ← digits_val 0 [y1; y2; y3; y4]; iso_time_in y r
      else
        match r with
        | y5 :: y6 :: y7 :: r' =>
            y ← digits_val 0 [y2; y3; y4; y5; y6; y7];
            if (y1 =? 43)%N then iso_time_in y r'
            else if (y1 =? 45)%N && negb (y =? 0) then iso_time_in (- y) r'
            else None
        | _ => None
        end
  | _ => None
  end.

(** A string in the ISO format that denotes a valid time value. *)
Definition iso8601 (s : jstr) : bool :=
  match iso_time s with
  | Some t => time_valid t
  | None => false
  end.

(** ** localStorage *)

Abbreviation Storage := (gmap (list N) (list N)).

Definition getItem (st : Storage) (k : jstr) : option jstr := st !! k.
Definition setItem (st : Storage) (k v : jstr) : Storage := <[k := v]> st.
Definition removeItem (st : Storage) (k : jstr) : Storage := delete k st.

(** A computation that reads and writes [localStorage] and returns or
    throws; an [async] function of the module settles its promise with
    the outcome. *)
Definition M (A : Type) : Type := Storage -> result A * Storage.

Definition ret {A} (a : A) : M A := fun st => (Ok a, st).
Definition throw {A} (e : error) : M A := fun st => (Throw e, st).
Definition lift {A} (r : result A) : M A := fun st => (r, st).
Definition mbindM {A B} (m : M A) (k : A -> M B) : M B :=
  fun st =>
    match m st with
    | (Ok a, st') => k a st'
    | (Throw e, st') => (Throw e, st')
    end.

Notation "x <~ m ;; k" := (mbindM m (fun x => k))
  (at level 100, m at next level, k at level 200, right associativity).

(** ** services/api.js *)

Definition LS_KEY : jstr := Eval cbv in js "notes_app_items_v1".

Definition k_id : jstr := Eval cbv in js "id".
Definition k_title : jstr := Eval cbv in js "title".
Definition k_content : jstr := Eval cbv in js "content".
Definition k_updatedAt : jstr := Eval cbv in js "updatedAt".

Definition str_Untitled : jstr := Eval cbv in js "Untitled".
Definition msg_not_found : jstr := Eval cbv in js "Note not found".

Inductive Method : Type := GET | POST | PUT | DELETE.

(** A request to [<base>/notes] or, with an item, to
    [<base>/notes/<encodeURIComponent(item)>], credentials included. *)
Record Request : Type := {
  req_method : Method;
  req_base : jstr;
  req_item : option value;
  req_body : option (option jstr)
}.

Record Response : Type := {
  res_ok : bool;
  res_status : Z;
  res_json : result value
}.

(** [s.replace(/\/+$/, '')]. *)
Fixpoint drop_slashes (s : jstr) : jstr :=
  match s with
  | [] => []
  | c :: s' => if (c =? 47)%N then drop_slashes s' else s
  end.

Definition strip_trailing_slashes (s : jstr) : jstr :=
  rev (drop_slashes (rev s)).

(** [l.find(p)], [l.findIndex(p)], [l.filter(p)] for a callback that may
    throw. *)
Fixpoint arr_find (p : value -> result bool) (l : list value)
  : result value :=
  match l with
  | [] => Ok VUndefined
  | n :: l' => do b <- p n; if b then Ok n else arr_find p l'
  end.

Fixpoint arr_findIndex (p : value -> result bool) (l : list value)
  : result (option nat) :=
  match l with
  | [] => Ok None
  | n :: l' =>
      do b <- p n;
      if b then Ok (Some O)
      else do r <- arr_findIndex p l'; Ok (option_map S r)
  end.

Fixpoint arr_filter (p : value -> result bool) (l : list value)
  : result (list value) :=
  match l with
  | [] => Ok []
  | n :: l' =>
      do b <- p n;
      do r <- arr_filter p l';
      Ok (if b then n :: r else r)
  end.

Fixpoint arr_map (f : value -> result value) (l : list value)
  : result (list value) :=
  match l with
  | [] => Ok []
  | n :: l' => do x <- f n; do r <- arr_map f l'; Ok (x :: r)
  end.

(** The receiver of an array method: [null] has no properties, and no
    other value that [JSON.parse] returns has the method. *)
Definition as_array (v : value) : result (list value) :=
  match v with
  | VArr l => Ok l
  | _ => Throw TypeError
  end.

(** [n => n.id === id] and [n => n.id !== id]. *)
Definition id_is (id : value) (n : value) : result bool :=
  do nid <- get n k_id; Ok (strict_eq nid id).

Definition id_is_not (id : value) (n : value) : result bool :=
  do nid <- get n k_id; Ok (negb (strict_eq nid id)).

Section Api.

(** The configured base URL, trimmed. *)
Variable API_BASE : jstr.

(** The network: the response to a request, or the rejection. *)
Variable fetch : Request -> result Response.

(** The time value the engine's [Date] constructor gives a string, or
    an array or object (which it first turns into a string): what
    [Date.parse] recognises beyond the ISO format is up to the
    engine. *)
Variable Date_parse : value -> option Z.

Definition isBackendConfigured : bool := negb (is_empty API_BASE).

Definition lsReadAll : M value := fun st =>
  match getItem st LS_KEY with
  | None => (Ok (VArr []), st)
  | Some raw =>
      if is_empty raw then (Ok (VArr []), st)
      else
        match JSON_parse raw with
        | Some v => (Ok v, st)
        | None => (Ok (VArr []), removeItem st LS_KEY)
        end
  end.

Definition lsWriteAll (notes : list value) : M unit := fun st =>
  (Ok tt,
   setItem st LS_KEY
     (match JSON_stringify (VArr notes) with
      | Some s => s
      | None => js "undefined"
      end)).

(** [new Date(v)]. *)
Definition Date_of (v : value) : option Z :=
  match v with
  | VUndefined => None
  | VNull => Some 0
  | VBool b => Some (if b then 1 else 0)
  | VNum NaN | VNum (Infinity _) => None
  | VNum (Dec m e) => time_clip (dec_trunc m e)
  | VStr _ | VArr _ | VObj _ =>
      match Date_parse v with
      | Some t => time_clip t
      | None => None
      end
  end.

(** [now] is the clock at the call. *)
Definition normalize (now : Z) (note : value) : result value :=
  do id <- get note k_id;
  do title <- get note k_title;
  do content <- get note k_content;
  do u <- get note k_updatedAt;
  do iso <- (if truthy u then toISOString (Date_of u)
             else toISOString (Some now));
  Ok (VObj [(k_id, id);
            (k_title, or_else title (VStr []));
            (k_content, or_else content (VStr []));
            (k_updatedAt, VStr iso)]).

Definition request (m : Method) (item : option value)
           (body : option (option jstr)) : Request :=
  {| req_method := m; req_base := strip_trailing_slashes API_BASE;
     req_item := item; req_body := body |}.

(** [Failed to <action> (<status>)] for a response that is not ok. *)
Definition checked (action : jstr) (item : option value) (r : Response)
  : result Response :=
  if res_ok r then Ok r else Throw (HttpError action item (res_status r)).

Definition fetchNotes (now : Z) : M value :=
  if isBackendConfigured then
    lift (do r <- fetch (request GET None None);
          do r <- checked (js "load notes") None r;
          do data <- res_json r;
          match data with
          | VArr l => do l' <- arr_map (normalize now) l; Ok (VArr l')
          | _ => Ok (VArr [])
          end)
  else lsReadAll.

Definition fetchNote (now : Z) (id : value) : M value :=
  if isBackendConfigured then
    lift (do r <- fetch (request GET (Some id) None);
          do r <- checked (js "load note") (Some id) r;
          do data <- res_json r;
          normalize now data)
  else
    v <~ lsReadAll;;
    all <~ lift (as_array v);;
    n <~ lift (arr_find (id_is id) all);;
    ret (or_else n VNull).

(** [rnd] is [Math.random().toString(36).slice(2, 10)]. *)
Definition createNote (now : Z) (rnd : jstr) (note : value) : M value :=
  if isBackendConfigured then
    lift (do r <- fetch (request POST None (Some (JSON_stringify note)));
          do r <- checked (js "create note") None r;
          do data <- res_json r;
          normalize now data)
  else
    v <~ lsReadAll;;
    iso <~ lift (toISOString (Some now));;
    id <~ lift (get note k_id);;
    title <~ lift (get note k_title);;
    content <~ lift (get note k_content);;
    let newNote :=
      VObj [(k_id, or_else id (VStr (js "n_" ++ rnd)));
            (k_title, or_else title (VStr str_Untitled));
            (k_content, or_else content (VStr []));
            (k_updatedAt, VStr iso)] in
    all <~ lift (as_array v);;
    _ <~ lsWriteAll (newNote :: all);;
    ret newNote.

Definition updateNote (now : Z) (id patch : value) : M value :=
  if isBackendConfigured then
    lift (do r <- fetch (request PUT (Some id)
                           (Some (JSON_stringify patch)));
          do r <- checked (js "update note") None r;
          do data <- res_json r;
          normalize now data)
  else
    v <~ lsReadAll;;
    all <~ lift (as_array v);;
    found <~ lift (arr_findIndex (id_is id) all);;
    match found with
    | None => throw (Error msg_not_found)
    | Some idx =>
        iso <~ lift (toISOString (Some now));;
        let updated :=
          VObj (set_prop
                  (spread (spread [] (default VUndefined (all !! idx)))
                          patch)
                  k_updatedAt (VStr iso)) in
        _ <~ lsWriteAll (<[idx := updated]> all);;
        ret updated
    end.

Definition deleteNote (id : value) : M value :=
  if isBackendConfigured then
    lift (do r <- fetch (request DELETE (Some id) None);
          do _ <- checked (js "delete note") None r;
          Ok (VBool true))
  else
    v <~ lsReadAll;;
    all <~ lift (as_array v);;
    next <~ lift (arr_filter (id_is_not id) all);;
    _ <~ lsWriteAll next;;
    ret (VBool true).

End Api.

(** ** utils.js: debounce *)

Module Debounce.
Section Debounce.

(** The argument list of a call. *)
Variable A : Type.

(** A timer of the event loop: its id, the time it is due, and the
    arguments its callback passes to [fn]. *)
Record Timer : Type := { timer_id : nat; due : Z; args : A }.

(** The closure variable [t], the timers pending in firing order, and
    the calls of [fn] made so far (oldest first) with their time. *)
Record State : Type := {
  t : option nat;
  next_id : nat;
  pending : list Timer;
  invoked : list (Z * A)
}.

Definition init : State :=
  {| t := None; next_id := 1%nat; pending := []; invoked := [] |}.

(** [wait = 400] when the argument is left out. *)
Definition wait_of (wait : option Z) : Z :=
  match wait with Some w => w | None => 400 end.

(** [clearTimeout(id)]: nothing happens for [undefined] or for a timer
    that has fired. *)
Definition clearTimeout (id : option nat) (q : list Timer) : list Timer :=
  match id with
  | None => q
  | Some i => List.filter (fun x => negb (Nat.eqb (timer_id x) i)) q
  end.

Fixpoint enqueue (x : Timer) (q : list Timer) : list Timer :=
  match q with
  | [] => [x]
  | y :: q' => if due x <? due y then x :: q else y :: enqueue x q'
  end.

(** [setTimeout(() => fn(...a), wait)] at time [now]; a negative delay
    counts as zero. *)
Definition setTimeout (now wait : Z) (a : A) (s : State) : State :=
  {| t := Some (next_id s);
     next_id := S (next_id s);
     pending := enqueue {| timer_id := next_id s;
                           due := now + Z.max 0 wait;
                           args := a |} (pending s);
     invoked := invoked s |}.

(** [debounce(fn, wait)]: the function it returns, called at [now] with
    the arguments [a]. *)
Definition debounce (wait : option Z) (now : Z) (a : A) (s : State)
  : State :=
  setTimeout now (wait_of wait) a
    {| t := t s; next_id := next_id s;
       pending := clearTimeout (t s) (pending s);
       invoked := invoked s |}.

(** The event loop at [now]: the timers that are due fire in order. *)
Fixpoint fire (now : Z) (q : list Timer) (log : list (Z * A))
  : list Timer * list (Z * A) :=
  match q with
  | [] => ([], log)
  | x :: q' =>
      if due x <=? now then fire now q' (log ++ [(due x, args x)])
      else (q, log)
  end.

Definition advance (now : Z) (s : State) : State :=
  let (q, log) := fire now (pending s) (invoked s) in
  {| t := t s; next_id := next_id s; pending := q; invoked := log |}.

(** A call arriving at [now]: the timers due by then have fired. *)
Definition call (wait : option Z) (s : State) (c : Z * A) : State :=
  debounce wait (fst c) (snd c) (advance (fst c) s).

Definition run (wait : option Z) (calls : list (Z * A)) (s : State)
  : State :=
  fold_left (call wait) calls s.

(** Calls in time order, each less than the wait after the one
    before. *)
Fixpoint burst (w : Z) (calls : list (Z * A)) : Prop :=
  match calls with
  | [] => True
  | c :: rest =>
      match rest with
      | [] => True
      | c' :: _ => fst c <= fst c' < fst c + w
      end /\ burst w rest
  end.

(** At most one timer is pending, and it is the one [t] names. *)
Definition at_most_one (s : State) : Prop :=
  pending s = [] \/
  exists x, pending s = [x] /\ t s = Some (timer_id x).

End Debounce.

Arguments timer_id {A} _.
Arguments due {A} _.
Arguments args {A} _.
Arguments t {A} _.
Arguments next_id {A} _.
Arguments pending {A} _.
Arguments invoked {A} _.
Arguments clearTimeout {A} id q.
Arguments enqueue {A} x q.
Arguments setTimeout {A} now wait a s.
Arguments debounce {A} wait now a s.
Arguments fire {A} now q log.
Arguments advance {A} now s.
Arguments call {A} wait s c.
Arguments run {A} wait calls s.
Arguments burst {A} w calls.
Arguments at_most_one {A} s.

End Debounce.

(** ** Configurations and call sequences used in the statements *)

(** No backend is configured; [fetch] would reject. *)
Definition no_backend : jstr := [].
Definition no_network : Request -> result Response :=
  fun _ => Throw TypeError.

(** An engine whose [Date.parse] recognises nothing. *)
Definition no_date_parse : value -> option Z := fun _ => None.

(** The id [createNote] gives the new note. *)
Definition chosen_id (rnd : jstr) (note : value) : result value :=
  do id <- get note k_id; Ok (or_else id (VStr (js "n_" ++ rnd))).

(** A sequence of [createNote] calls, each with its clock reading, its
    random token and its input; the storage they leave. *)
Fixpoint create_seq (API_BASE : jstr) (fetch : Request -> result Response)
         (Date_parse : value -> option Z)
         (calls : list (Z * jstr * value)) (st : Storage) : Storage :=
  match calls with
  | [] => st
  | (now, rnd, note) :: rest =>
      create_seq API_BASE fetch Date_parse rest
        (snd (createNote API_BASE fetch Date_parse now rnd note st))
  end.

(** The note [createNote] builds. *)
Definition new_note (now : Z) (rnd : jstr) (id title content : value)
  : value :=
  VObj [(k_id, or_else id (VStr (js "n_" ++ rnd)));
        (k_title, or_else title (VStr str_Untitled));
        (k_content, or_else content (VStr []));
        (k_updatedAt, VStr (iso_of_time now))].

(** A collection of notes: the storage reads as an array of objects. *)
Definition is_object (v : value) : Prop := exists ps, v = VObj ps.

Definition notes_store (st : Storage) : Prop :=
  exists all st',
    lsReadAll st = (Ok (VArr all), st') /\ Forall is_object all.

(** The time a string in the ISO format denotes is strictly later than
    that of another. *)
Definition iso_later (a b : jstr) : Prop :=
  match iso_time a, iso_time b with
  | Some x, Some y => y < x
  | _, _ => False
  end.

(** A value that is falsy or a string. *)
Definition string_or_falsy (v : value) : Prop :=
  truthy v = false \/ exists s, v = VStr s.

(** ** services/api.js: the backend address *)

(** [WhiteSpace] and [LineTerminator], the code units [trim] strips. *)
Definition is_js_space (c : N) : bool :=
  ((c =? 9) || (c =? 10) || (c =? 11) || (c =? 12) || (c =? 13) ||
   (c =? 32) || (c =? 160) || (c =? 5760) ||
   ((8192 <=? c) && (c <=? 8202)) || (c =? 8232) || (c =? 8233) ||
   (c =? 8239) || (c =? 8287) || (c =? 12288) || (c =? 65279))%N.

Fixpoint trim_start (s : jstr) : jstr :=
  match s with
  | [] => []
  | c :: s' => if is_js_space c then trim_start s' else s
  end.

(** [s.trim()]. *)
Definition trim (s : jstr) : jstr := rev (trim_start (rev (trim_start s))).

(** [a || b || ''] for two environment variables, each unset or a
    string. *)
Definition env_choice (primary secondary : option jstr) : jstr :=
  match primary with
  | Some (c :: p) => c :: p
  | _ =>
      match secondary with
      | Some (c :: s) => c :: s
      | _ => []
      end
  end.

(** [(process.env.REACT_APP_API_BASE || process.env.REACT_APP_BACKEND_URL
    || '').trim()]. *)
Definition API_BASE_of (primary secondary : option jstr) : jstr :=
  trim (env_choice primary secondary).

(** ** App.js: the list of notes kept in memory *)

(** The component keeps the list it has loaded in its state and brings
    it up to date after each operation with an updater of its own; the
    ids it compares there are primitive values in every statement
    below. *)

(** [handleCreate]: the note it asks for, [{ title: 'Untitled',
    content: '' }], and its updater [prev => [newN, ...prev]]. *)
Definition blank_note : value :=
  VObj [(k_title, VStr str_Untitled); (k_content, VStr [])].

Definition notes_after_create (newN : value) (prev : list value)
  : list value :=
  newN :: prev.

(** [handleDelete]: its updater [prev => prev.filter(n => n.id !== id)]
    and the note it makes active,
    [remaining.length ? remaining[0].id : null] for
    [remaining = notes.filter(n => n.id !== id)]. *)
Definition notes_after_delete (id : value) (prev : list value)
  : result (list value) :=
  arr_filter (id_is_not id) prev.

Definition next_active (id : value) (notes : list value) : result value :=
  do remaining <- arr_filter (id_is_not id) notes;
  match remaining with
  | [] => Ok VNull
  | n :: _ => get n k_id
  end.

(** [doSave]: its updater
    [prev => prev.map(n => (n.id === id ? { ...n, ...updated } : n))]. *)
Definition notes_after_save (id updated : value) (prev : list value)
  : result (list value) :=
  arr_map (fun n =>
             do b <- id_is id n;
             Ok (if b then VObj (spread (spread [] n) updated) else n))
          prev.

(** [debouncedSave = debounce(doSave, 500)]. *)
Definition save_wait : option Z := Some 500.

(** [handleFieldChange(field, value)]: the call of [debouncedSave] it
    makes, [debouncedSave(activeId, { [field]: value })], if any.  The
    call sits in the updater of [setEditing], which runs once for an
    edit. *)
Definition handleFieldChange (activeId : value) (field : jstr) (v : value)
  : option (value * value) :=
  if truthy activeId then Some (activeId, VObj [(field, v)]) else None.

(** ** Notes, servers and call sequences used in further statements *)

(** The id of an entry of the collection ([undefined] for an entry that
    has none). *)
Definition note_id (n : value) : value :=
  match get n k_id with
  | Ok x => x
  | Throw _ => VUndefined
  end.

(** The entries [n => n.id !== id] keeps. *)
Definition other_id (id : value) (n : value) : bool :=
  negb (strict_eq (note_id n) id).

(** The shape of a note that leaves [normalize]: the four fields in
    order, a title and a content that are the empty string or truthy,
    and an [updatedAt] in the ISO format. *)
Definition canonical (n : value) : Prop :=
  exists id title content iso,
    n = VObj [(k_id, id); (k_title, title); (k_content, content);
              (k_updatedAt, VStr iso)] /\
    (title = VStr [] \/ truthy title = true) /\
    (content = VStr [] \/ truthy content = true) /\
    iso8601 iso = true.

(** A [Date.parse] that reads the strings of [toISOString], as every
    engine must, and nothing else. *)
Definition iso_date_parse (v : value) : option Z :=
  match v with
  | VStr s => iso_time s
  | _ => None
  end.

(** A server that answers every request with the same body. *)
Definition answers (body : value) : Request -> result Response :=
  fun _ => Ok {| res_ok := true; res_status := 200; res_json := Ok body |}.

(** Of calls listed in the order they are made, those whose wait has run
    out when the next call arrives, or by [T] for the last call, each
    with the time its wait runs out. *)
Fixpoint fired {A} (w T : Z) (calls : list (Z * A)) : list (Z * A) :=
  match calls with
  | [] => []
  | c :: rest =>
      let limit := match rest with [] => T | c' :: _ => fst c' end in
      (if fst c + w <=? limit then [(fst c + w, snd c)] else []) ++
      fired w T rest
  end.

(** The state a call leaves: its own timer is the only one. *)
Definition armed {A} (w : Z) (c : Z * A) (s : Debounce.State A) : Prop :=
  exists i,
    Debounce.pending s = [{| Debounce.timer_id := i;
                             Debounce.due := fst c + w;
                             Debounce.args := snd c |}] /\
    Debounce.t s = Some i.

(** ** Predicates on texts used in the statements about JSON *)

Definition no_digit_head (r : jstr) : Prop :=
  match r with
  | [] => True
  | c :: _ => digit_of c = None
  end.

(** The first character of a printed integer. *)
Definition number_head (c : N) : Prop := c = 45%N \/ is_digit c = true.

(** What may follow a value in a text: nothing, or a character that
    cannot continue a number. *)
Definition delimited (r : jstr) : Prop :=
  match r with
  | [] => True
  | c :: _ => c = 44%N \/ c = 93%N \/ c = 125%N
  end.

Definition value_head (c : N) : Prop :=
  c = 110%N \/ c = 116%N \/ c = 102%N \/ c = 34%N \/ c = 91%N \/
  c = 123%N \/ c = 45%N \/ is_digit c = true.

(** ** Induction on values *)

Section ValueInd.
Variable P : value -> Prop.
Hypothesis Hundef : P VUndefined.
Hypothesis Hnull : P VNull.
Hypothesis Hbool : forall b, P (VBool b).
Hypothesis Hnum : forall n, P (VNum n).
Hypothesis Hstr : forall s, P (VStr s).
Hypothesis Harr : forall l, Forall P l -> P (VArr l).
Hypothesis Hobj : forall ps, Forall (fun p => P (snd p)) ps -> P (VObj ps).

Fixpoint value_ind (v : value) : P v :=
  match v with
  | VUndefined => Hundef
  | VNull => Hnull
  | VBool b => Hbool b
  | VNum n => Hnum n
  | VStr s => Hstr s
  | VArr l =>
      Harr l ((fix go (l : list value) : Forall P l :=
                 match l with
                 | [] => List.Forall_nil P
                 | x :: l' => @List.Forall_cons _ P x l' (value_ind x) (go l')
                 end) l)
  | VObj ps =>
      Hobj ps ((fix go (ps : list (jstr * value))
                  : Forall (fun p => P (snd p)) ps :=
                  match ps with
                  | [] => List.Forall_nil _
                  | p :: ps' =>
                      @List.Forall_cons _ _ p ps' (value_ind (snd p)) (go ps')
                  end) ps)
  end.
End ValueInd.

(** * Properties *)

(** ** Strings and objects *)

Lemma jstr_eqb_eq (a b : jstr) : jstr_eqb a b = true <-> a = b.
Proof.
  revert b. induction a as [|x a IH]; intros [|y b]; simpl; split;
    try congruence; try discriminate.
  - rewrite andb_true_iff, N.eqb_eq, IH. intros [-> ->]. reflexivity.
  - intros [= -> ->]. rewrite N.eqb_refl. simpl. apply IH. reflexivity.
Qed.

Lemma jstr_eqb_refl (a : jstr) : jstr_eqb a a = true.
Proof. apply jstr_eqb_eq. reflexivity. Qed.

Lemma jstr_eqb_neq (a b : jstr) : a <> b -> jstr_eqb a b = false.
Proof.
  intros H. destruct (jstr_eqb a b) eqn:E; [|reflexivity].
  apply jstr_eqb_eq in E. contradiction.
Qed.

Lemma lookup_prop_app ps qs k :
  lookup_prop (ps ++ qs) k =
  match lookup_prop qs k with
  | Some x => Some x
  | None => lookup_prop ps k
  end.
Proof.
  induction ps as [|[k' v] ps IH]; simpl.
  - destruct (lookup_prop qs k); reflexivity.
  - rewrite IH. destruct (lookup_prop qs k); reflexivity.
Qed.

Lemma lookup_prop_None ps k :
  lookup_prop ps k = None <-> ~ In k (List.map fst ps).
Proof.
  induction ps as [|[k' v] ps IH]; simpl.
  - tauto.
  - destruct (lookup_prop ps k) eqn:E.
    + split; [discriminate|]. intros H. exfalso. apply H. right.
      destruct (List.in_dec (List.list_eq_dec N.eq_dec) k (List.map fst ps)) as [i|n];
        [exact i|]. apply IH in n. discriminate.
    + destruct (jstr_eqb k' k) eqn:Ek.
      * apply jstr_eqb_eq in Ek. split; [discriminate|]. intros H.
        exfalso. apply H. left. exact Ek.
      * split; [|reflexivity]. intros _ [H|H].
        -- apply jstr_eqb_eq in H. congruence.
        -- apply IH in H; [exact H|reflexivity].
Qed.

Lemma lookup_prop_replace ps k v k0 :
  lookup_prop
    (List.map (fun p => if jstr_eqb (fst p) k then (fst p, v) else p) ps) k0 =
  match lookup_prop ps k0 with
  | Some x => Some (if jstr_eqb k0 k then v else x)
  | None => None
  end.
Proof.
  induction ps as [|[k' x] ps IH]; simpl; [reflexivity|].
  destruct (jstr_eqb k' k) eqn:Ek; simpl; rewrite IH;
    destruct (lookup_prop ps k0); try reflexivity;
    destruct (jstr_eqb k' k0) eqn:E0; try reflexivity.
  - apply jstr_eqb_eq in E0. subst k0. rewrite Ek. reflexivity.
  - apply jstr_eqb_eq in E0. subst k0. rewrite Ek. reflexivity.
Qed.

(** Reading a property after [o[k] = v]. *)
Lemma lookup_set_prop ps k v k0 :
  lookup_prop (set_prop ps k v) k0 =
  if jstr_eqb k k0 then Some v else lookup_prop ps k0.
Proof.
  unfold set_prop, has_prop.
  destruct (lookup_prop ps k) eqn:E.
  - rewrite lookup_prop_replace.
    destruct (jstr_eqb k k0) eqn:Ek.
    + apply jstr_eqb_eq in Ek. subst k0. rewrite E, jstr_eqb_refl.
      reflexivity.
    + destruct (lookup_prop ps k0); [|reflexivity].
      destruct (jstr_eqb k0 k) eqn:Ek'; [|reflexivity].
      apply jstr_eqb_eq in Ek'. subst k0. rewrite jstr_eqb_refl in Ek.
      discriminate.
  - rewrite lookup_prop_app. simpl.
    destruct (jstr_eqb k k0) eqn:Ek; [reflexivity|]. reflexivity.
Qed.

Lemma lookup_set_props qs : forall ps k,
  lookup_prop (set_props ps qs) k =
  match lookup_prop qs k with
  | Some x => Some x
  | None => lookup_prop ps k
  end.
Proof.
  induction qs as [|[k' v] qs IH]; intros ps k; simpl; [reflexivity|].
  unfold set_props in *. simpl. rewrite IH, lookup_set_prop.
  destruct (lookup_prop qs k); [reflexivity|].
  destruct (jstr_eqb k' k); reflexivity.
Qed.
(** ** Numbers *)

Lemma take_digits_chars u r :
  no_digit_head r -> take_digits (uint_chars u ++ r) = (u, r).
Proof.
  intros Hr. induction u; simpl; try (rewrite IHu; reflexivity).
  destruct r as [|c r]; [reflexivity|]. simpl in *. rewrite Hr. reflexivity.
Qed.

Lemma nzhead_not_D0 d u : Decimal.nzhead d <> Decimal.D0 u.
Proof. induction d; simpl; try discriminate. exact IHd. Qed.

Lemma int_part_ok_to_uint n : int_part_ok (N.to_uint n) = true.
Proof.
  rewrite <- (DecimalN.Unsigned.of_to n) at 1.
  rewrite DecimalN.Unsigned.to_of. unfold Decimal.unorm.
  pose proof (nzhead_not_D0 (N.to_uint n)) as H.
  destruct (Decimal.nzhead (N.to_uint n)); try reflexivity.
  exfalso. eapply H. reflexivity.
Qed.

Lemma uint_nonempty_to_uint n : uint_nonempty (N.to_uint n) = true.
Proof.
  pose proof (int_part_ok_to_uint n) as H.
  destruct (N.to_uint n); simpl in *; congruence.
Qed.

Lemma Z_of_uint_abs z :
  Z_of_uint (z <? 0) (N.to_uint (Z.abs_N z)) = z.
Proof.
  unfold Z_of_uint. rewrite DecimalN.Unsigned.of_to, N2Z.inj_abs_N.
  destruct (Z.ltb_spec z 0); lia.
Qed.

Lemma uint_chars_head u :
  uint_nonempty u = true ->
  exists c s, uint_chars u = c :: s /\ is_digit c = true.
Proof. destruct u; simpl; intros H; try discriminate; eauto. Qed.

Lemma ser_Z_head z : exists c s, ser_Z z = c :: s /\ number_head c.
Proof.
  unfold ser_Z, digits, number_head.
  destruct (uint_chars_head _ (uint_nonempty_to_uint (Z.abs_N z)))
    as (c & s & E & Hc).
  destruct (z <? 0); eauto.
Qed.

Lemma delimited_no_digit r : delimited r -> no_digit_head r.
Proof.
  destruct r as [|c r]; simpl; [trivial|].
  intros [->|[->| ->]]; reflexivity.
Qed.

Lemma take_sign_ser_Z z r :
  take_sign (ser_Z z ++ r) = ((z <? 0), digits (Z.abs_N z) ++ r).
Proof.
  unfold ser_Z, digits. destruct (z <? 0) eqn:Ez; simpl; [reflexivity|].
  destruct (uint_chars_head _ (uint_nonempty_to_uint (Z.abs_N z)))
    as (c & s & E & Hc).
  rewrite E. simpl. destruct (N.eqb_spec c 45) as [->|_];
    [discriminate Hc|reflexivity].
Qed.

Lemma take_exp_sign_ser_Z z r :
  take_exp_sign (ser_Z z ++ r) = ((z <? 0), digits (Z.abs_N z) ++ r).
Proof.
  unfold ser_Z, digits. destruct (z <? 0) eqn:Ez; simpl; [reflexivity|].
  destruct (uint_chars_head _ (uint_nonempty_to_uint (Z.abs_N z)))
    as (c & s & E & Hc).
  rewrite E. simpl. destruct (N.eqb_spec c 45) as [->|_];
    [discriminate Hc|].
  destruct (N.eqb_spec c 43) as [->|_]; [discriminate Hc|reflexivity].
Qed.

Lemma parse_number_ser m e r :
  delimited r ->
  parse_number (ser_number (Dec m e) ++ r) = Some (Dec m e, r).
Proof.
  intros Hr. unfold parse_number, ser_number.
  destruct (Z.eqb_spec e 0) as [->|He].
  - rewrite take_sign_ser_Z. unfold digits.
    rewrite take_digits_chars by (apply delimited_no_digit, Hr).
    rewrite int_part_ok_to_uint.
    assert (parse_fraction r = Some (Decimal.Nil, r)) as ->.
    { destruct r as [|c r]; [reflexivity|]. simpl in Hr.
      destruct Hr as [->|[->| ->]]; reflexivity. }
    simpl.
    assert (parse_exponent r = Some (0, r)) as ->.
    { destruct r as [|c r]; [reflexivity|]. simpl in Hr.
      destruct Hr as [->|[->| ->]]; reflexivity. }
    simpl. rewrite DecimalFacts.app_nil_r, Z_of_uint_abs. reflexivity.
  - rewrite <- app_assoc, take_sign_ser_Z. unfold digits.
    rewrite take_digits_chars by reflexivity.
    rewrite int_part_ok_to_uint.
    change (parse_fraction ((101%N :: ser_Z e) ++ r)) with
      (Some (Decimal.Nil, 101%N :: ser_Z e ++ r)).
    cbn [mbind option_bind parse_exponent N.eqb Pos.eqb orb].
    rewrite take_exp_sign_ser_Z. unfold digits.
    rewrite take_digits_chars by (apply delimited_no_digit, Hr).
    rewrite uint_nonempty_to_uint.
    simpl. rewrite DecimalFacts.app_nil_r, !Z_of_uint_abs.
    replace (e - Z.of_nat 0) with e by lia. reflexivity.
Qed.
(** ** String literals *)

Lemma parse_string_quote s r :
  parse_string (quote_chars s ++ r) = Some (s, r).
Proof.
  induction s as [|c s IH]; [reflexivity|].
  cbn [quote_chars]. rewrite <- app_assoc. unfold escape.
  destruct (N.eqb_spec c 34) as [->|H34];
    [cbn; rewrite IH; reflexivity|].
  destruct (N.eqb_spec c 92) as [->|H92];
    [cbn; rewrite IH; reflexivity|].
  destruct (N.eqb_spec c 8) as [->|H8];
    [cbn; rewrite IH; reflexivity|].
  destruct (N.eqb_spec c 12) as [->|H12];
    [cbn; rewrite IH; reflexivity|].
  destruct (N.eqb_spec c 10) as [->|H10];
    [cbn; rewrite IH; reflexivity|].
  destruct (N.eqb_spec c 13) as [->|H13];
    [cbn; rewrite IH; reflexivity|].
  destruct (N.eqb_spec c 9) as [->|H9];
    [cbn; rewrite IH; reflexivity|].
  destruct (N.ltb_spec c 32) as [Hlt|Hge].
  - assert (List.In c (List.map N.of_nat (seq 0 32))) as Hin.
    { apply in_map_iff. exists (N.to_nat c). split; [lia|].
      apply in_seq. lia. }
    cbn in Hin.
    repeat (destruct Hin as [<-|Hin]; [cbn; rewrite IH; reflexivity|]).
    destruct Hin.
  - cbn [app parse_string].
    destruct (N.eqb_spec c 34); [contradiction|].
    destruct (N.eqb_spec c 92); [contradiction|].
    destruct (N.ltb_spec c 32); [lia|].
    rewrite IH. reflexivity.
Qed.

(** ** The first character of a printed value *)

Lemma value_head_not_ws c : value_head c -> is_ws c = false.
Proof.
  unfold value_head, is_digit, is_ws.
  intros [->|[->|[->|[->|[->|[->|[->|H]]]]]]]; try reflexivity.
  apply andb_true_iff in H as [H1 H2]. apply N.leb_le in H1, H2.
  destruct (N.eqb_spec c 32); [lia|]. destruct (N.eqb_spec c 9); [lia|].
  destruct (N.eqb_spec c 10); [lia|]. destruct (N.eqb_spec c 13); [lia|].
  reflexivity.
Qed.

Lemma ser_head v : exists c s, ser v = c :: s /\ value_head c.
Proof.
  unfold value_head.
  destruct v as [| |[]|[| |m e]|s|l|ps]; cbn; eauto 12.
  destruct (Z.eqb_spec e 0).
  - destruct (ser_Z_head m) as (c & s & -> & [->|H]); eauto 12.
  - destruct (ser_Z_head m) as (c & s & -> & [->|H]); cbn; eauto 12.
Qed.

Lemma skip_ws_head c s : is_ws c = false -> skip_ws (c :: s) = c :: s.
Proof. intros H. simpl. rewrite H. reflexivity. Qed.

Lemma skip_ws_ser v r : skip_ws (ser v ++ r) = ser v ++ r.
Proof.
  destruct (ser_head v) as (c & s & -> & H).
  apply skip_ws_head, value_head_not_ws, H.
Qed.

Lemma skip_ws_delimited r : delimited r -> skip_ws r = r.
Proof.
  destruct r as [|c r]; [reflexivity|]. simpl.
  intros [->|[->| ->]]; reflexivity.
Qed.
(** ** Reading back what was written *)

Lemma ser_members_undefined (f : value -> jstr) k ps :
  ser_members f ((k, VUndefined) :: ps) = ser_members f ps.
Proof. reflexivity. Qed.

Lemma ser_members_defined (f : value -> jstr) k x ps :
  x <> VUndefined ->
  ser_members f ((k, x) :: ps) = (quote k ++ 58%N :: f x) :: ser_members f ps.
Proof. destruct x; intros H; try reflexivity. contradiction. Qed.

Lemma json_members_undefined (f : value -> value) k ps :
  json_members f ((k, VUndefined) :: ps) = json_members f ps.
Proof. reflexivity. Qed.

Lemma json_members_defined (f : value -> value) k x ps :
  x <> VUndefined ->
  json_members f ((k, x) :: ps) = (k, f x) :: json_members f ps.
Proof. destruct x; intros H; try reflexivity. contradiction. Qed.

Lemma parse_value_array f r :
  parse_value (S f) (91%N :: r) =
  match skip_ws r with
  | [] => None
  | c' :: r' =>
      if (c' =? 93)%N then Some (VArr [], r')
      else '(l, r'') ← parse_elements f r; Some (VArr l, r'')
  end.
Proof. reflexivity. Qed.

Lemma parse_value_object f r :
  parse_value (S f) (123%N :: r) =
  match skip_ws r with
  | [] => None
  | c' :: r' =>
      if (c' =? 125)%N then Some (VObj [], r')
      else '(ps, r'') ← parse_members f r; Some (VObj (set_props [] ps), r'')
  end.
Proof. reflexivity. Qed.

Lemma parse_value_string f r :
  parse_value (S f) (34%N :: r) =
  '(str, r') ← parse_string r; Some (VStr str, r').
Proof. reflexivity. Qed.

Lemma parse_value_number f c s :
  value_head c -> c = 45%N \/ is_digit c = true ->
  parse_value (S f) (c :: s) =
  '(n, r') ← parse_number (c :: s); Some (VNum n, r').
Proof.
  intros Hh Hc. cbn [parse_value]. rewrite skip_ws_head
    by (apply value_head_not_ws, Hh).
  assert (c <> 110 /\ c <> 116 /\ c <> 102 /\ c <> 34 /\ c <> 91 /\
          c <> 123)%N as (H1 & H2 & H3 & H4 & H5 & H6).
  { destruct Hc as [->|Hc]; [repeat split; discriminate|].
    unfold is_digit in Hc. apply andb_true_iff in Hc as [Ha Hb].
    apply N.leb_le in Ha, Hb. lia. }
  destruct (N.eqb_spec c 110); [contradiction|].
  destruct (N.eqb_spec c 116); [contradiction|].
  destruct (N.eqb_spec c 102); [contradiction|].
  destruct (N.eqb_spec c 34); [contradiction|].
  destruct (N.eqb_spec c 91); [contradiction|].
  destruct (N.eqb_spec c 123); [contradiction|].
  reflexivity.
Qed.

Lemma join_cons a l :
  l <> [] -> join (a :: l) = a ++ 44%N :: join l.
Proof. destruct l; [contradiction|reflexivity]. Qed.

Lemma not_head_93 : ~ value_head 93%N.
Proof. unfold value_head. intros [H|[H|[H|[H|[H|[H|[H|H]]]]]]]; discriminate. Qed.

Lemma parse_elements_ser l :
  Forall (fun v => forall fuel r, (length (ser v) <= fuel)%nat ->
            delimited r ->
            parse_value fuel (ser v ++ r) = Some (jsonify v, r)) l ->
  l <> [] ->
  forall fuel r,
    (length (join (List.map ser l)) + 1 <= fuel)%nat ->
    parse_elements fuel (join (List.map ser l) ++ 93%N :: r) =
    Some (List.map jsonify l, r).
Proof.
  induction 1 as [|x l Hx Hl IH]; [contradiction|]. intros _ fuel r Hf.
  destruct fuel as [|fuel]; [lia|]. cbn [parse_elements].
  cbn [List.map] in Hf |- *.
  destruct l as [|y l].
  - cbn [List.map join] in *. rewrite Hx by (simpl; auto; lia).
    reflexivity.
  - rewrite join_cons in * by discriminate.
    rewrite length_app in Hf. cbn [length] in Hf.
    rewrite <- app_assoc. rewrite Hx by (simpl; auto; lia).
    cbn [mbind option_bind app skip_ws is_ws N.eqb Pos.eqb orb].
    rewrite IH by (try discriminate; lia). reflexivity.
Qed.

Lemma parse_members_ser ps :
  Forall (fun p => forall fuel r, (length (ser (snd p)) <= fuel)%nat ->
            delimited r ->
            parse_value fuel (ser (snd p) ++ r) = Some (jsonify (snd p), r))
         ps ->
  ser_members ser ps <> [] ->
  forall fuel r,
    (length (join (ser_members ser ps)) + 1 <= fuel)%nat ->
    parse_members fuel (join (ser_members ser ps) ++ 125%N :: r) =
    Some (json_members jsonify ps, r).
Proof.
  induction 1 as [|[k x] ps Hx Hl IH]; [contradiction|]. intros Hne fuel r Hf.
  assert (x = VUndefined \/ x <> VUndefined) as [->|Hd]
    by (destruct x; auto; right; discriminate).
  { rewrite ser_members_undefined in *. rewrite json_members_undefined.
    apply IH; assumption. }
  rewrite ser_members_defined in * by assumption.
  rewrite json_members_defined by assumption.
  destruct fuel as [|fuel]; [lia|]. simpl in Hx.
  destruct (ser_members ser ps) as [|m ms] eqn:Em.
  - cbn [join] in *. rewrite length_app in Hf. cbn [length] in Hf.
    unfold quote. cbn [app parse_members skip_ws is_ws N.eqb Pos.eqb orb].
    rewrite <- !app_assoc, parse_string_quote.
    cbn [mbind option_bind app skip_ws is_ws N.eqb Pos.eqb orb].
    rewrite Hx by (simpl; auto; lia).
    assert (json_members jsonify ps = []) as ->.
    { clear -Em. induction ps as [|[k' y] ps IH]; [reflexivity|].
      destruct y; try discriminate Em. apply IH, Em. }
    reflexivity.
  - rewrite join_cons in * by discriminate.
    rewrite ?length_app in Hf. cbn [length] in Hf.
    rewrite ?length_app in Hf. cbn [length] in Hf.
    unfold quote. cbn [app parse_members skip_ws is_ws N.eqb Pos.eqb orb].
    rewrite <- !app_assoc.
    cbn [app]. rewrite <- ?app_assoc. rewrite parse_string_quote.
    cbn [mbind option_bind app skip_ws is_ws N.eqb Pos.eqb orb].
    rewrite <- ?app_assoc.
    rewrite Hx by (simpl; auto; lia).
    cbn [mbind option_bind app skip_ws is_ws N.eqb Pos.eqb orb].
    rewrite IH by (try discriminate; lia). reflexivity.
Qed.

Lemma length_ser_pos v : (1 <= length (ser v))%nat.
Proof. destruct (ser_head v) as (c & s & -> & _). simpl. lia. Qed.

Lemma parse_value_ser v : forall fuel r,
  (length (ser v) <= fuel)%nat -> delimited r ->
  parse_value fuel (ser v ++ r) = Some (jsonify v, r).
Proof.
  induction v as [| |b|n|s|l IH|ps IH] using value_ind; intros fuel r Hf Hr;
    (match type of Hf with
     | (length (ser ?v) <= _)%nat => pose proof (length_ser_pos v) as Hpos
     end; destruct fuel as [|fuel]; [lia|]; clear Hpos).
  - reflexivity.
  - reflexivity.
  - destruct b; reflexivity.
  - destruct n as [| |m e]; try reflexivity.
    destruct (ser_head (VNum (Dec m e))) as (c & s & E & Hc).
    cbn [ser] in E |- *.
    assert (c = 45%N \/ is_digit c = true) as Hd.
    { revert E. unfold ser_number.
      destruct (ser_Z_head m) as (c' & s' & E' & Hc').
      destruct (e =? 0); rewrite E'; intros [= <- _]; exact Hc'. }
    rewrite E. cbn [app]. rewrite parse_value_number by assumption.
    change (c :: s ++ r) with ((c :: s) ++ r). rewrite <- E.
    rewrite parse_number_ser by assumption. reflexivity.
  - cbn [ser jsonify]. unfold quote. cbn [app].
    rewrite parse_value_string, parse_string_quote. reflexivity.
  - cbn [ser jsonify app]. rewrite parse_value_array, <- app_assoc.
    destruct l as [|x l]; [reflexivity|].
    assert (x :: l <> []) as Hne by discriminate.
    assert (exists c s, join (List.map ser (x :: l)) = c :: s /\ value_head c)
      as (c & s & E & Hc).
    { destruct (ser_head x) as (c & s & E & Hc). cbn [List.map].
      destruct l; cbn [join List.map]; rewrite E; cbn; eauto. }
    rewrite E. cbn [app]. rewrite skip_ws_head by (apply value_head_not_ws, Hc).
    destruct (N.eqb_spec c 93) as [->|_]; [destruct (not_head_93 Hc)|].
    change (c :: s ++ 93%N :: r) with ((c :: s) ++ 93%N :: r).
    rewrite <- E. cbn [ser length] in Hf. rewrite length_app in Hf.
    cbn [length] in Hf.
    rewrite (parse_elements_ser _ IH Hne) by lia. reflexivity.
  - cbn [ser jsonify app]. rewrite parse_value_object, <- app_assoc.
    destruct (ser_members ser ps) as [|m ms] eqn:Em.
    + assert (json_members jsonify ps = []) as ->.
      { clear -Em. induction ps as [|[k' y] ps IH]; [reflexivity|].
        destruct y; try discriminate Em. apply IH, Em. }
      reflexivity.
    + assert (exists s, join (m :: ms) = 34%N :: s) as (s & E).
      { assert (exists k x, m = quote k ++ 58%N :: ser x) as (k & x & ->).
        { clear -Em. induction ps as [|[k' y] ps IH]; [discriminate|].
          assert (y = VUndefined \/ y <> VUndefined) as [->|Hd]
            by (destruct y; auto; right; discriminate).
          - apply IH, Em.
          - rewrite ser_members_defined in Em by assumption.
            injection Em as <- _. eauto. }
        unfold quote. destruct ms; cbn; eauto. }
      rewrite E. cbn [app skip_ws is_ws N.eqb Pos.eqb orb].
      change (34%N :: s ++ 125%N :: r) with ((34%N :: s) ++ 125%N :: r).
      rewrite <- E, <- Em. cbn [ser length] in Hf. rewrite length_app in Hf.
      cbn [length] in Hf. rewrite Em in Hf.
      rewrite (parse_members_ser _ IH) by (rewrite ?Em; try discriminate; lia).
      reflexivity.
Qed.

(** Everything [JSON.stringify] writes is read back by [JSON.parse]. *)
Lemma JSON_parse_ser v : JSON_parse (ser v) = Some (jsonify v).
Proof.
  unfold JSON_parse.
  rewrite <- (app_nil_r (ser v)) at 2.
  rewrite parse_value_ser by (simpl; auto; lia). reflexivity.
Qed.
(** ** What the parser returns is unchanged by another round trip *)

Lemma has_prop_In ps k : has_prop ps k = true <-> In k (List.map fst ps).
Proof.
  unfold has_prop. pose proof (lookup_prop_None ps k) as H.
  destruct (lookup_prop ps k).
  - split; [|reflexivity]. intros _.
    destruct (List.in_dec (List.list_eq_dec N.eq_dec) k (List.map fst ps))
      as [i|n]; [exact i|]. apply H in n. discriminate.
  - split; [discriminate|]. intros Hin. apply H in Hin; [destruct Hin|].
    reflexivity.
Qed.

Lemma set_prop_keys ps k v :
  List.map fst (set_prop ps k v) =
  if has_prop ps k then List.map fst ps else List.map fst ps ++ [k].
Proof.
  unfold set_prop. destruct (has_prop ps k).
  - rewrite List.map_map. apply List.map_ext. intros [k' x]. simpl.
    destruct (jstr_eqb k' k); reflexivity.
  - rewrite List.map_app. reflexivity.
Qed.

Lemma set_prop_NoDup ps k v :
  List.NoDup (List.map fst ps) -> List.NoDup (List.map fst (set_prop ps k v)).
Proof.
  intros H. rewrite set_prop_keys. destruct (has_prop ps k) eqn:E; [exact H|].
  apply NoDup_ListNoDup. apply NoDup_app. split; [apply NoDup_ListNoDup, H|].
  split; [|apply NoDup_singleton].
  intros x Hx Hk. apply list_elem_of_singleton in Hk. subst x.
  apply list_elem_of_In, has_prop_In in Hx. congruence.
Qed.

Lemma set_props_NoDup qs : forall ps,
  List.NoDup (List.map fst ps) ->
  List.NoDup (List.map fst (set_props ps qs)).
Proof.
  induction qs as [|[k v] qs IH]; intros ps H; [exact H|].
  apply IH, set_prop_NoDup, H.
Qed.

Lemma set_prop_values (P : value -> Prop) ps k v :
  Forall (fun p => P (snd p)) ps -> P v ->
  Forall (fun p => P (snd p)) (set_prop ps k v).
Proof.
  intros H Hv. unfold set_prop. destruct (has_prop ps k).
  - induction H as [|[k' x] ps Hx _ IH]; simpl; constructor; [|exact IH].
    destruct (jstr_eqb k' k); assumption.
  - apply Forall_app. split; [exact H|]. constructor; [exact Hv|constructor].
Qed.

Lemma set_props_values (P : value -> Prop) qs : forall ps,
  Forall (fun p => P (snd p)) ps -> Forall (fun p => P (snd p)) qs ->
  Forall (fun p => P (snd p)) (set_props ps qs).
Proof.
  induction qs as [|[k v] qs IH]; intros ps H Hq; [exact H|].
  inversion Hq; subst. apply IH; [|assumption].
  apply set_prop_values; assumption.
Qed.

(** Setting properties with fresh, distinct keys appends them. *)
Lemma set_props_fresh qs : forall ps,
  List.NoDup (List.map fst (ps ++ qs)) -> set_props ps qs = ps ++ qs.
Proof.
  induction qs as [|[k v] qs IH]; intros ps H.
  - rewrite app_nil_r. reflexivity.
  - change (set_props ps ((k, v) :: qs)) with (set_props (set_prop ps k v) qs).
    assert (has_prop ps k = false) as E.
    { destruct (has_prop ps k) eqn:E; [|reflexivity].
      apply has_prop_In in E. rewrite List.map_app in H. simpl in H.
      apply List.NoDup_remove_2 in H. exfalso. apply H.
      apply List.in_or_app. left. exact E. }
    unfold set_prop. rewrite E. rewrite IH.
    + rewrite <- app_assoc. reflexivity.
    + rewrite <- app_assoc. exact H.
Qed.

Lemma json_members_id ps :
  Forall (fun p => jsonify (snd p) = snd p) ps ->
  json_members jsonify ps = ps.
Proof.
  induction 1 as [|[k x] ps Hx _ IH]; [reflexivity|]. simpl in Hx.
  rewrite json_members_defined, Hx, IH; [reflexivity|].
  intros ->. discriminate Hx.
Qed.

Lemma jsonify_object ps :
  Forall (fun p => jsonify (snd p) = snd p) ps ->
  jsonify (VObj (set_props [] ps)) = VObj (set_props [] ps).
Proof.
  intros H. cbn [jsonify]. f_equal.
  rewrite json_members_id
    by (apply (set_props_values (fun x => jsonify x = x));
        [constructor|exact H]).
  apply set_props_fresh. apply set_props_NoDup. constructor.
Qed.

Lemma map_id_Forall {A} (f : A -> A) l :
  Forall (fun x => f x = x) l -> List.map f l = l.
Proof. induction 1; simpl; congruence. Qed.

Lemma parse_stable fuel :
  (forall s v r, parse_value fuel s = Some (v, r) -> jsonify v = v) /\
  (forall s l r, parse_elements fuel s = Some (l, r) ->
                 Forall (fun x => jsonify x = x) l) /\
  (forall s ps r, parse_members fuel s = Some (ps, r) ->
                  Forall (fun p => jsonify (snd p) = snd p) ps).
Proof.
  induction fuel as [|fuel (IHv & IHe & IHm)];
    [repeat split; intros; discriminate|].
  repeat split.
  - intros s v r. cbn [parse_value].
    destruct (skip_ws s) as [|c s']; [discriminate|].
    repeat match goal with
           | |- context [if ?b then _ else _] => destruct b
           end.
    + destruct (expect _ _); [|discriminate]. intros [= <- _]. reflexivity.
    + destruct (expect _ _); [|discriminate]. intros [= <- _]. reflexivity.
    + destruct (expect _ _); [|discriminate]. intros [= <- _]. reflexivity.
    + destruct (parse_string s') as [[str r']|]; [|discriminate].
      intros [= <- _]. reflexivity.
    + destruct (skip_ws s') as [|c' r']; [discriminate|].
      destruct (c' =? 93)%N; [intros [= <- _]; reflexivity|].
      destruct (parse_elements fuel s') as [[l r'']|] eqn:E; [|discriminate].
      intros [= <- _]. cbn [jsonify]. f_equal.
      apply map_id_Forall. eapply IHe, E.
    + destruct (skip_ws s') as [|c' r']; [discriminate|].
      destruct (c' =? 125)%N; [intros [= <- _]; reflexivity|].
      destruct (parse_members fuel s') as [[ps r'']|] eqn:E; [|discriminate].
      intros [= <- _]. apply jsonify_object. eapply IHm, E.
    + unfold parse_number.
      destruct (take_sign (c :: s')) as [negative s1].
      destruct (take_digits s1) as [ip s2].
      destruct (int_part_ok ip); [|discriminate].
      destruct (parse_fraction s2) as [[fp s3]|]; [|discriminate].
      cbn [mbind option_bind].
      destruct (parse_exponent s3) as [[x s4]|]; [|discriminate].
      intros [= <- _]. reflexivity.
  - intros s l r. cbn [parse_elements].
    destruct (parse_value fuel s) as [[v r1]|] eqn:Ev; [|discriminate].
    cbn [mbind option_bind].
    destruct (skip_ws r1) as [|c r2]; [discriminate|].
    destruct (c =? 44)%N.
    + destruct (parse_elements fuel r2) as [[l' r3]|] eqn:E; [|discriminate].
      intros [= <- _]. constructor; [eapply IHv, Ev|eapply IHe, E].
    + destruct (c =? 93)%N; [|discriminate].
      intros [= <- _]. constructor; [eapply IHv, Ev|constructor].
  - intros s ps r. cbn [parse_members].
    destruct (skip_ws s) as [|q s1]; [discriminate|].
    destruct (q =? 34)%N; [|discriminate].
    destruct (parse_string s1) as [[k r1]|]; [|discriminate].
    cbn [mbind option_bind].
    destruct (skip_ws r1) as [|c1 r2]; [discriminate|].
    destruct (c1 =? 58)%N; [|discriminate].
    destruct (parse_value fuel r2) as [[v r3]|] eqn:Ev; [|discriminate].
    cbn [mbind option_bind].
    destruct (skip_ws r3) as [|c3 r4]; [discriminate|].
    destruct (c3 =? 44)%N.
    + destruct (parse_members fuel r4) as [[ps' r5]|] eqn:E; [|discriminate].
      intros [= <- _]. constructor; [eapply IHv, Ev|eapply IHm, E].
    + destruct (c3 =? 125)%N; [|discriminate].
      intros [= <- _]. constructor; [eapply IHv, Ev|constructor].
Qed.

(** A value read by [JSON.parse] is written and read back unchanged. *)
Lemma JSON_parse_stable s v : JSON_parse s = Some v -> jsonify v = v.
Proof.
  unfold JSON_parse.
  destruct (parse_value _ s) as [[v' r]|] eqn:E; [|discriminate].
  cbn [mbind option_bind]. destruct (is_empty (skip_ws r)); [|discriminate].
  intros [= <-]. eapply (proj1 (parse_stable _)), E.
Qed.
(** ** The fuel of the parser is enough *)

Lemma skip_ws_length s : (length (skip_ws s) <= length s)%nat.
Proof.
  induction s as [|c s IH]; simpl; [lia|]. destruct (is_ws c); simpl; lia.
Qed.

Lemma skip_ws_cons s c r :
  skip_ws s = c :: r -> (length r < length s)%nat.
Proof. intros H. pose proof (skip_ws_length s). rewrite H in *. simpl in *. lia. Qed.

Lemma take_digits_length s : forall u r,
  take_digits s = (u, r) ->
  (length r <= length s)%nat /\
  (uint_nonempty u = true -> length r < length s)%nat.
Proof.
  induction s as [|c s IH]; intros u r; simpl.
  - intros [= <- <-]. split; [simpl; lia|discriminate].
  - destruct (digit_of c) as [d|].
    + destruct (take_digits s) as [u' r'] eqn:E. intros [= <- <-].
      destruct (IH u' r' eq_refl) as [H _]. split; intros; lia.
    + intros [= <- <-]. split; [simpl; lia|discriminate].
Qed.

Lemma expect_length w : forall s r,
  expect w s = Some r -> (length r + length w = length s)%nat.
Proof.
  induction w as [|a w IH]; intros s r; simpl.
  - intros [= <-]. lia.
  - destruct s as [|b s]; [discriminate|]. destruct (a =? b)%N; [|discriminate].
    intros H. apply IH in H. simpl. lia.
Qed.

Lemma parse_string_length s : forall str r,
  parse_string s = Some (str, r) -> (length r < length s)%nat.
Proof.
  remember (length s) as n eqn:En. revert s En.
  induction n as [n IH] using lt_wf_ind. intros s En str r.
  destruct s as [|c s]; [discriminate|]. cbn [parse_string].
  destruct (c =? 34)%N; [intros [= _ <-]; simpl in *; lia|].
  destruct (c =? 92)%N.
  - destruct s as [|e s1]; [discriminate|]. destruct (e =? 117)%N.
    + destruct s1 as [|h1 [|h2 [|h3 [|h4 s2]]]]; try discriminate.
      destruct (hex_val h1); [|discriminate].
      destruct (hex_val h2); [|discriminate].
      destruct (hex_val h3); [|discriminate].
      destruct (hex_val h4); [|discriminate]. cbn [mbind option_bind].
      destruct (parse_string s2) as [[str' r']|] eqn:E; [|discriminate].
      intros [= _ <-]. apply (IH (length s2)) in E; simpl in *; lia.
    + destruct (unescape e); [|discriminate]. cbn [mbind option_bind].
      destruct (parse_string s1) as [[str' r']|] eqn:E; [|discriminate].
      intros [= _ <-]. apply (IH (length s1)) in E; simpl in *; lia.
  - destruct (c <? 32)%N; [discriminate|].
    destruct (parse_string s) as [[str' r']|] eqn:E; [|discriminate].
    intros [= _ <-]. apply (IH (length s)) in E; simpl in *; lia.
Qed.

Lemma take_sign_length s b r :
  take_sign s = (b, r) -> (length r <= length s)%nat.
Proof.
  destruct s as [|c s]; simpl; [intros [= _ <-]; simpl; lia|].
  destruct (c =? 45)%N; intros [= _ <-]; simpl; lia.
Qed.

Lemma parse_fraction_length s f r :
  parse_fraction s = Some (f, r) -> (length r <= length s)%nat.
Proof.
  destruct s as [|c s]; simpl; [intros [= _ <-]; simpl; lia|].
  assert (forall (o : option (Decimal.uint * jstr)),
             o = Some (Decimal.Nil, c :: s) -> o = Some (f, r) ->
             (length r <= S (length s))%nat) as Hdef
    by (intros o -> [= _ <-]; simpl; lia).
  destruct (N.eqb_spec c 46) as [->|Hc].
  - simpl. destruct (take_digits s) as [u r'] eqn:E.
    destruct (uint_nonempty u); [|discriminate]. intros [= _ <-].
    apply take_digits_length in E. lia.
  - intros H. eapply Hdef; [|exact H].
    destruct c as [|p]; [reflexivity|].
    repeat (destruct p as [p|p|]; try reflexivity). contradiction.
Qed.

Lemma parse_exponent_length s x r :
  parse_exponent s = Some (x, r) -> (length r <= length s)%nat.
Proof.
  destruct s as [|c s]; simpl; [intros [= _ <-]; simpl; lia|].
  destruct ((c =? 101)%N || (c =? 69)%N); [|intros [= _ <-]; simpl; lia].
  destruct (take_exp_sign s) as [b r1] eqn:Es.
  destruct (take_digits r1) as [u r2] eqn:E.
  destruct (uint_nonempty u); [|discriminate]. intros [= _ <-].
  apply take_digits_length in E.
  assert (length r1 <= length s)%nat.
  { destruct s as [|c' s']; simpl in Es; [injection Es as _ <-; simpl; lia|].
    destruct (c' =? 45)%N; [injection Es as _ <-; simpl; lia|].
    destruct (c' =? 43)%N; injection Es as _ <-; simpl; lia. }
  lia.
Qed.

Lemma parse_number_length s n r :
  parse_number s = Some (n, r) -> (length r < length s)%nat.
Proof.
  unfold parse_number. destruct (take_sign s) as [b s1] eqn:Es.
  destruct (take_digits s1) as [ip s2] eqn:Ed.
  destruct (int_part_ok ip) eqn:Eok; [|discriminate].
  destruct (parse_fraction s2) as [[fp s3]|] eqn:Ef; [|discriminate].
  cbn [mbind option_bind].
  destruct (parse_exponent s3) as [[x s4]|] eqn:Ex; [|discriminate].
  intros [= _ <-]. apply take_sign_length in Es.
  apply take_digits_length in Ed. apply parse_fraction_length in Ef.
  apply parse_exponent_length in Ex.
  assert (uint_nonempty ip = true) by (destruct ip; simpl in *; congruence).
  destruct Ed as [_ Ed]. specialize (Ed H). lia.
Qed.

Lemma parse_fuel f :
  (forall s v r, parse_value f s = Some (v, r) ->
     (length r < length s)%nat /\
     forall f', (2 * (length s - length r) <= f')%nat ->
                parse_value f' s = Some (v, r)) /\
  (forall s l r, parse_elements f s = Some (l, r) ->
     (length r < length s)%nat /\
     forall f', (2 * (length s - length r) + 1 <= f')%nat ->
                parse_elements f' s = Some (l, r)) /\
  (forall s ps r, parse_members f s = Some (ps, r) ->
     (length r < length s)%nat /\
     forall f', (2 * (length s - length r) + 1 <= f')%nat ->
                parse_members f' s = Some (ps, r)).
Proof.
  induction f as [|f (IHv & IHe & IHm)];
    [repeat split; intros; discriminate|].
  split; [|split].
  - intros s v r. cbn [parse_value].
    pose proof (skip_ws_length s) as Hws.
    destruct (skip_ws s) as [|c s0] eqn:Es; [discriminate|].
    cbn [length] in Hws.
    destruct (c =? 110)%N eqn:E1;
      [|destruct (c =? 116)%N eqn:E2;
        [|destruct (c =? 102)%N eqn:E3;
          [|destruct (c =? 34)%N eqn:E4;
            [|destruct (c =? 91)%N eqn:E5;
              [|destruct (c =? 123)%N eqn:E6]]]]].
    + destruct (expect lit_null (c :: s0)) as [r'|] eqn:E; [|discriminate].
      intros [= <- <-]. pose proof (expect_length _ _ _ E) as El.
      simpl in El. split; [lia|]. intros [|f'] Hf; [lia|].
      cbn [parse_value]. rewrite Es, E1, E. reflexivity.
    + destruct (expect lit_true (c :: s0)) as [r'|] eqn:E; [|discriminate].
      intros [= <- <-]. pose proof (expect_length _ _ _ E) as El.
      simpl in El. split; [lia|]. intros [|f'] Hf; [lia|].
      cbn [parse_value]. rewrite Es, E1, E2, E. reflexivity.
    + destruct (expect lit_false (c :: s0)) as [r'|] eqn:E; [|discriminate].
      intros [= <- <-]. pose proof (expect_length _ _ _ E) as El.
      simpl in El. split; [lia|]. intros [|f'] Hf; [lia|].
      cbn [parse_value]. rewrite Es, E1, E2, E3, E. reflexivity.
    + destruct (parse_string s0) as [[str r']|] eqn:E; [|discriminate].
      intros [= <- <-]. pose proof (parse_string_length _ _ _ E) as El.
      split; [lia|]. intros [|f'] Hf; [lia|].
      cbn [parse_value]. rewrite Es, E1, E2, E3, E4, E. reflexivity.
    + pose proof (skip_ws_length s0) as Hws0.
      destruct (skip_ws s0) as [|c' r1] eqn:Es0; [discriminate|].
      cbn [length] in Hws0.
      destruct (c' =? 93)%N eqn:E7.
      * intros [= <- <-]. split; [lia|]. intros [|f'] Hf; [lia|].
        cbn [parse_value]. rewrite Es, E1, E2, E3, E4, E5, Es0, E7.
        reflexivity.
      * destruct (parse_elements f s0) as [[l r'']|] eqn:E; [|discriminate].
        intros [= <- <-]. destruct (IHe _ _ _ E) as [Hl Hf0].
        split; [lia|]. intros [|f'] Hf; [lia|].
        cbn [parse_value]. rewrite Es, E1, E2, E3, E4, E5, Es0, E7.
        rewrite Hf0 by lia. reflexivity.
    + pose proof (skip_ws_length s0) as Hws0.
      destruct (skip_ws s0) as [|c' r1] eqn:Es0; [discriminate|].
      cbn [length] in Hws0.
      destruct (c' =? 125)%N eqn:E7.
      * intros [= <- <-]. split; [lia|]. intros [|f'] Hf; [lia|].
        cbn [parse_value]. rewrite Es, E1, E2, E3, E4, E5, E6, Es0, E7.
        reflexivity.
      * destruct (parse_members f s0) as [[ps r'']|] eqn:E; [|discriminate].
        intros [= <- <-]. destruct (IHm _ _ _ E) as [Hl Hf0].
        split; [lia|]. intros [|f'] Hf; [lia|].
        cbn [parse_value]. rewrite Es, E1, E2, E3, E4, E5, E6, Es0, E7.
        rewrite Hf0 by lia. reflexivity.
    + destruct (parse_number (c :: s0)) as [[n r']|] eqn:E; [|discriminate].
      intros [= <- <-]. pose proof (parse_number_length _ _ _ E) as El.
      simpl in El. split; [lia|]. intros [|f'] Hf; [lia|].
      cbn [parse_value]. rewrite Es, E1, E2, E3, E4, E5, E6, E. reflexivity.
  - intros s l r. cbn [parse_elements].
    destruct (parse_value f s) as [[v r1]|] eqn:Ev; [|discriminate].
    cbn [mbind option_bind]. destruct (IHv _ _ _ Ev) as [Hl1 Hf1].
    pose proof (skip_ws_length r1) as Hws.
    destruct (skip_ws r1) as [|c r2] eqn:Es; [discriminate|].
    cbn [length] in Hws.
    destruct (c =? 44)%N eqn:E1.
    + destruct (parse_elements f r2) as [[l' r3]|] eqn:E; [|discriminate].
      intros [= <- <-]. destruct (IHe _ _ _ E) as [Hl2 Hf2].
      split; [lia|]. intros [|f'] Hf; [lia|].
      cbn [parse_elements]. rewrite Hf1 by lia. cbn [mbind option_bind].
      rewrite Es, E1, Hf2 by lia. reflexivity.
    + destruct (c =? 93)%N eqn:E2; [|discriminate].
      intros [= <- <-]. split; [lia|]. intros [|f'] Hf; [lia|].
      cbn [parse_elements]. rewrite Hf1 by lia. cbn [mbind option_bind].
      rewrite Es, E1, E2. reflexivity.
  - intros s ps r. cbn [parse_members].
    pose proof (skip_ws_length s) as Hws.
    destruct (skip_ws s) as [|q s1] eqn:Es; [discriminate|].
    cbn [length] in Hws.
    destruct (q =? 34)%N eqn:E0; [|discriminate].
    destruct (parse_string s1) as [[k r1]|] eqn:Ek; [|discriminate].
    cbn [mbind option_bind].
    pose proof (parse_string_length _ _ _ Ek) as Hlk.
    pose proof (skip_ws_length r1) as Hws1.
    destruct (skip_ws r1) as [|c1 r2] eqn:Es1; [discriminate|].
    cbn [length] in Hws1.
    destruct (c1 =? 58)%N eqn:E1; [|discriminate].
    destruct (parse_value f r2) as [[v r3]|] eqn:Ev; [|discriminate].
    cbn [mbind option_bind]. destruct (IHv _ _ _ Ev) as [Hl1 Hf1].
    pose proof (skip_ws_length r3) as Hws3.
    destruct (skip_ws r3) as [|c3 r4] eqn:Es3; [discriminate|].
    cbn [length] in Hws3.
    destruct (c3 =? 44)%N eqn:E2.
    + destruct (parse_members f r4) as [[ps' r5]|] eqn:E; [|discriminate].
      intros [= <- <-]. destruct (IHm _ _ _ E) as [Hl2 Hf2].
      split; [lia|]. intros [|f'] Hf; [lia|].
      cbn [parse_members]. rewrite Es, E0, Ek. cbn [mbind option_bind].
      rewrite Es1, E1, Hf1 by lia. cbn [mbind option_bind].
      rewrite Es3, E2, Hf2 by lia. reflexivity.
    + destruct (c3 =? 125)%N eqn:E3; [|discriminate].
      intros [= <- <-]. split; [lia|]. intros [|f'] Hf; [lia|].
      cbn [parse_members]. rewrite Es, E0, Ek. cbn [mbind option_bind].
      rewrite Es1, E1, Hf1 by lia. cbn [mbind option_bind].
      rewrite Es3, E2, E3. reflexivity.
Qed.

(** No text is refused for want of fuel: a text that some fuel parses
    to the end is parsed by [JSON_parse]. *)
Lemma JSON_parse_fuel f s v r :
  parse_value f s = Some (v, r) ->
  is_empty (skip_ws r) = true ->
  JSON_parse s = Some v.
Proof.
  intros H Hr. destruct (proj1 (parse_fuel f) _ _ _ H) as [Hl Hf].
  unfold JSON_parse. rewrite Hf by lia. cbn [mbind option_bind].
  rewrite Hr. reflexivity.
Qed.

(** ** The format of [toISOString] *)

Lemma civil_from_days_range days :
  -100000000 <= days <= 100000000 ->
  let '(y, m, d) := civil_from_days days in
  -271821 <= y <= 275760 /\ 1 <= m <= 12 /\ 1 <= d <= 31.
Proof.
  intros H. unfold civil_from_days.
  set (z := days + 719468).
  set (era := z / 146097).
  set (doe := z - era * 146097).
  set (yoe := (doe - doe / 1460 + doe / 36524 - doe / 146096) / 365).
  set (doy := doe - (365 * yoe + yoe / 4 - yoe / 100)).
  set (mp := (5 * doy + 2) / 153).
  assert (0 <= doe <= 146096) as Hdoe
    by (subst doe era; Z.div_mod_to_equations; lia).
  assert (0 <= yoe <= 399) as Hyoe
    by (subst yoe; Z.div_mod_to_equations; lia).
  assert (0 <= doy <= 365) as Hdoy
    by (subst doy yoe; Z.div_mod_to_equations; lia).
  assert (0 <= mp <= 11) as Hmp
    by (subst mp; Z.div_mod_to_equations; lia).
  assert (-680 <= era <= 689) as Hera
    by (subst era z; Z.div_mod_to_equations; lia).
  assert (era = -680 -> 179 <= yoe) as Hlo.
  { intros He. assert (65428 <= doe) by (subst doe z; lia).
    subst yoe. Z.div_mod_to_equations. lia. }
  assert (era = 689 -> yoe <= 160 /\ (yoe = 160 -> mp < 10)) as Hhi.
  { intros He. assert (doe <= 58635) by (subst doe z; lia).
    assert (yoe <= 160) by (subst yoe; Z.div_mod_to_equations; lia).
    split; [assumption|]. intros Hy.
    assert (doy <= 196) by (subst doy; rewrite Hy; Z.div_mod_to_equations; lia).
    subst mp. Z.div_mod_to_equations. lia. }
  split; [|split].
  - destruct (mp <? 10) eqn:E1;
      [apply Z.ltb_lt in E1|apply Z.ltb_ge in E1];
      destruct (_ <=? 2) eqn:E2; try lia.
    all: clearbody mp yoe era; lia.
  - destruct (mp <? 10) eqn:E1;
      [apply Z.ltb_lt in E1|apply Z.ltb_ge in E1]; lia.
  - subst mp. Z.div_mod_to_equations. lia.
Qed.

(** The day number of the date of a day number is that day number. *)
Lemma days_from_civil_from_days days :
  let '(y, m, d) := civil_from_days days in days_from_civil y m d = days.
Proof.
  unfold civil_from_days, days_from_civil.
  set (z := days + 719468).
  set (era := z / 146097).
  set (doe := z - era * 146097).
  set (yoe := (doe - doe / 1460 + doe / 36524 - doe / 146096) / 365).
  set (doy := doe - (365 * yoe + yoe / 4 - yoe / 100)).
  set (mp := (5 * doy + 2) / 153).
  assert (0 <= doe <= 146096) as Hdoe
    by (subst doe era; Z.div_mod_to_equations; lia).
  assert (0 <= yoe <= 399) as Hyoe
    by (subst yoe; Z.div_mod_to_equations; lia).
  assert (0 <= doy <= 365) as Hdoy
    by (subst doy yoe; Z.div_mod_to_equations; lia).
  assert (0 <= mp <= 11) as Hmp
    by (subst mp; Z.div_mod_to_equations; lia).
  set (m := if mp <? 10 then mp + 3 else mp - 9).
  assert ((if m <=? 2 then m + 9 else m - 3) = mp) as ->.
  { subst m. destruct (Z.ltb_spec mp 10);
      match goal with |- context [?a <=? 2] => destruct (Z.leb_spec a 2) end;
      lia. }
  set (y' := if m <=? 2
             then yoe + era * 400 + (if m <=? 2 then 1 else 0) - 1
             else yoe + era * 400 + (if m <=? 2 then 1 else 0)).
  assert (y' = yoe + era * 400) as ->
    by (subst y'; destruct (m <=? 2); lia).
  assert ((yoe + era * 400) / 400 = era) as ->
    by (Z.div_mod_to_equations; lia).
  replace (yoe + era * 400 - era * 400) with yoe by lia.
  subst doy z. lia.
Qed.

Lemma is_digit_digit_char d : 0 <= d <= 9 -> is_digit (digit_char d) = true.
Proof.
  intros H. unfold is_digit, digit_char.
  apply andb_true_iff. split; apply N.leb_le; lia.
Qed.

Lemma digits_val_digit acc d s :
  0 <= d <= 9 ->
  digits_val acc (digit_char d :: s) = digits_val (acc * 10 + d) s.
Proof.
  intros H. cbn [digits_val]. rewrite is_digit_digit_char by assumption.
  f_equal. unfold digit_char. lia.
Qed.

Lemma digits_val_pad2 acc n s :
  0 <= n <= 99 -> digits_val acc (pad2 n ++ s) = digits_val (acc * 100 + n) s.
Proof.
  intros H. unfold pad2. cbn [app].
  rewrite !digits_val_digit by (Z.div_mod_to_equations; lia).
  f_equal. Z.div_mod_to_equations. lia.
Qed.

Lemma digits_val_pad3 n :
  0 <= n <= 999 -> digits_val 0 (pad3 n) = Some n.
Proof.
  intros H. unfold pad3.
  rewrite digits_val_digit by (Z.div_mod_to_equations; lia).
  rewrite <- (app_nil_r (pad2 _)).
  rewrite digits_val_pad2 by (Z.div_mod_to_equations; lia).
  cbn [digits_val]. f_equal. Z.div_mod_to_equations. lia.
Qed.

Lemma digits_val_pad2_end acc n :
  0 <= n <= 99 -> digits_val acc (pad2 n) = Some (acc * 100 + n).
Proof.
  intros H. rewrite <- (app_nil_r (pad2 n)), digits_val_pad2 by assumption.
  reflexivity.
Qed.

Lemma digits_val_pad2_nil n :
  0 <= n <= 99 -> digits_val 0 (pad2 n) = Some n.
Proof. intros H. rewrite digits_val_pad2_end by assumption. reflexivity. Qed.

Lemma iso_time_in_fields y m d h mi s ms :
  1 <= m <= 12 -> 1 <= d <= 31 -> 0 <= h <= 23 -> 0 <= mi <= 59 ->
  0 <= s <= 59 -> 0 <= ms <= 999 ->
  civil_from_days (days_from_civil y m d) = (y, m, d) ->
  iso_time_in y
    (45%N :: pad2 m ++ 45%N :: pad2 d ++ 84%N :: pad2 h ++ 58%N ::
     pad2 mi ++ 58%N :: pad2 s ++ 46%N :: pad3 ms ++ [90%N]) =
  Some (days_from_civil y m d * ms_per_day +
        h * 3600000 + mi * 60000 + s * 1000 + ms).
Proof.
  intros Hm Hd Hh Hmi Hs Hms Hc.
  pose proof (digits_val_pad2_nil m ltac:(lia)) as Em.
  pose proof (digits_val_pad2_nil d ltac:(lia)) as Ed.
  pose proof (digits_val_pad2_nil h ltac:(lia)) as Eh.
  pose proof (digits_val_pad2_nil mi ltac:(lia)) as Emi.
  pose proof (digits_val_pad2_nil s ltac:(lia)) as Es.
  pose proof (digits_val_pad3 ms ltac:(lia)) as Ems.
  unfold pad3, pad2 in *. cbn [app iso_time_in N.eqb Pos.eqb andb].
  rewrite Em, Ed, Eh, Emi, Es, Ems. cbn [mbind option_bind].
  rewrite Hc. unfold civil_eqb. rewrite !Z.eqb_refl.
  destruct (Z.leb_spec 1 m); [|lia]. destruct (Z.leb_spec m 12); [|lia].
  destruct (Z.leb_spec 1 d); [|lia]. destruct (Z.leb_spec d 31); [|lia].
  destruct (Z.leb_spec h 23); [|lia]. destruct (Z.leb_spec mi 59); [|lia].
  destruct (Z.leb_spec s 59); [|lia]. reflexivity.
Qed.

(** A valid time value is printed in the ISO format, and the string
    denotes that time value. *)
Lemma iso_time_of_time t :
  time_valid t = true -> iso_time (iso_of_time t) = Some t.
Proof.
  unfold time_valid, max_time. rewrite andb_true_iff, !Z.leb_le. intros Ht.
  unfold iso_of_time, ms_per_day.
  pose proof (civil_from_days_range (t / 86400000)) as Hc.
  pose proof (days_from_civil_from_days (t / 86400000)) as Hz.
  destruct (civil_from_days (t / 86400000)) as [[y m] d] eqn:Ec.
  destruct Hc as (Hy & Hm & Hd); [Z.div_mod_to_equations; lia|].
  set (ms := t mod 86400000).
  assert (0 <= ms < 86400000) as Hms by (apply Z.mod_pos_bound; lia).
  assert (iso_time_in y
            (45%N :: pad2 m ++ 45%N :: pad2 d ++ 84%N ::
             pad2 (ms / 3600000) ++ 58%N :: pad2 (ms / 60000 mod 60) ++
             58%N :: pad2 (ms / 1000 mod 60) ++ 46%N ::
             pad3 (ms mod 1000) ++ [90%N]) = Some t) as Htail.
  { rewrite iso_time_in_fields;
      try (Z.div_mod_to_equations; lia); [|rewrite Hz; exact Ec].
    f_equal. rewrite Hz. unfold ms_per_day. subst ms.
    Z.div_mod_to_equations. lia. }
  unfold year_chars.
  destruct ((0 <=? y) && (y <=? 9999)) eqn:E.
  - apply andb_true_iff in E as [E1 E2]. apply Z.leb_le in E1, E2.
    assert (digits_val 0 (pad4 y) = Some y) as Ey.
    { unfold pad4. rewrite digits_val_pad2 by (Z.div_mod_to_equations; lia).
      rewrite digits_val_pad2_end by (Z.div_mod_to_equations; lia).
      f_equal. Z.div_mod_to_equations. lia. }
    unfold pad4, pad2 in Ey |- *. cbn [app iso_time] in Ey |- *.
    rewrite is_digit_digit_char by (Z.div_mod_to_equations; lia).
    rewrite Ey. exact Htail.
  - assert (1 <= Z.abs y <= 275760) as Ha.
    { apply andb_false_iff in E as [E|E];
        [apply Z.leb_gt in E|apply Z.leb_gt in E]; lia. }
    assert (digits_val 0 (pad6 (Z.abs y)) = Some (Z.abs y)) as Ey.
    { unfold pad6, pad4.
      rewrite digits_val_pad2 by (Z.div_mod_to_equations; lia).
      rewrite digits_val_pad2 by (Z.div_mod_to_equations; lia).
      rewrite digits_val_pad2_end by (Z.div_mod_to_equations; lia).
      f_equal. Z.div_mod_to_equations. lia. }
    unfold pad6, pad4, pad2 in Ey |- *.
    cbn [app] in Ey |- *.
    destruct (Z.ltb_spec y 0) as [Hneg|Hpos]; cbn [iso_time is_digit N.leb
      N.compare Pos.compare Pos.compare_cont andb]; rewrite Ey;
      cbn [mbind option_bind N.eqb Pos.eqb andb].
    + destruct (Z.eqb_spec (Z.abs y) 0); [lia|]. cbn [negb].
      replace (- Z.abs y) with y by lia. exact Htail.
    + replace (Z.abs y) with y by lia. exact Htail.
Qed.

Lemma iso_of_time_format t :
  time_valid t = true -> iso8601 (iso_of_time t) = true.
Proof.
  intros H. unfold iso8601. rewrite iso_time_of_time by assumption. exact H.
Qed.

(** ** The local store *)

Lemma lsReadAll_spec (st : Storage) :
  exists v st',
    lsReadAll st = (Ok v, st') /\ jsonify v = v /\
    lsReadAll st' = (Ok v, st') /\
    (st' = st \/
     exists raw, st !! LS_KEY = Some raw /\ raw <> [] /\
                 JSON_parse raw = None /\ v = VArr [] /\
                 st' = delete LS_KEY st).
Proof.
  unfold lsReadAll, getItem, removeItem.
  destruct (st !! LS_KEY) as [raw|] eqn:E.
  - destruct raw as [|c raw].
    + exists (VArr []), st. cbn [is_empty]. rewrite E. cbn [is_empty]. auto.
    + cbn [is_empty]. destruct (JSON_parse (c :: raw)) as [v|] eqn:Ep.
      * exists v, st. rewrite E. cbn [is_empty]. rewrite Ep.
        repeat split; auto. eapply JSON_parse_stable, Ep.
      * exists (VArr []), (delete LS_KEY st). rewrite lookup_delete_eq.
        split; [reflexivity|]. split; [reflexivity|]. split; [reflexivity|].
        right. exists (c :: raw). repeat split; auto.
  - exists (VArr []), st. rewrite E. auto.
Qed.

Lemma lsReadAll_stable (st : Storage) (v : value) (st' : Storage) :
  lsReadAll st = (Ok v, st') -> jsonify v = v.
Proof.
  intros H. destruct (lsReadAll_spec st) as (v0 & st0 & E & Hs & _).
  congruence.
Qed.

Lemma lsReadAll_again (st : Storage) (v : value) (st' : Storage) :
  lsReadAll st = (Ok v, st') -> lsReadAll st' = (Ok v, st').
Proof.
  intros H. destruct (lsReadAll_spec st) as (v0 & st0 & E & _ & Hr & _).
  congruence.
Qed.

Lemma lsReadAll_written (notes : list value) (st : Storage) :
  lsReadAll (snd (lsWriteAll notes st)) =
  (Ok (VArr (List.map jsonify notes)), snd (lsWriteAll notes st)).
Proof.
  unfold lsWriteAll, lsReadAll, getItem, setItem. cbn [snd JSON_stringify].
  rewrite lookup_insert_eq. cbn [ser is_empty].
  change (91%N :: join (List.map ser notes) ++ [93%N]) with (ser (VArr notes)).
  rewrite JSON_parse_ser. reflexivity.
Qed.

Lemma lsWriteAll_twice (notes notes' : list value) (st : Storage) :
  snd (lsWriteAll notes' (snd (lsWriteAll notes st))) =
  snd (lsWriteAll notes' st).
Proof. unfold lsWriteAll, setItem. cbn [snd]. apply insert_insert_eq. Qed.

Lemma jsonify_idem v : jsonify (jsonify v) = jsonify v.
Proof. eapply JSON_parse_stable, JSON_parse_ser. Qed.

Lemma stable_elements l :
  jsonify (VArr l) = VArr l -> Forall (fun x => jsonify x = x) l.
Proof.
  cbn [jsonify]. intros [= H]. induction l as [|x l IH]; constructor.
  - simpl in H. congruence.
  - apply IH. simpl in H. congruence.
Qed.

Lemma stable_map l :
  jsonify (VArr l) = VArr l -> List.map jsonify l = l.
Proof. cbn [jsonify]. congruence. Qed.

Lemma strict_eq_str_refl s : strict_eq (VStr s) (VStr s) = true.
Proof. apply jstr_eqb_refl. Qed.

(** ** The stores the module leaves *)

Lemma jsonify_is_object v : is_object v -> is_object (jsonify v).
Proof. intros [ps ->]. cbn [jsonify]. eexists. reflexivity. Qed.

Lemma is_object_not_null v : is_object v -> v <> VNull.
Proof. intros [ps ->]. discriminate. Qed.

(** A collection of notes has no [null] entry. *)
Lemma notes_store_no_null (st st' : Storage) (all : list value) :
  notes_store st -> lsReadAll st = (Ok (VArr all), st') ->
  Forall (fun n => n <> VNull) all.
Proof.
  intros (all0 & st0 & E & H) Hr. rewrite Hr in E. injection E as -> <-.
  clear Hr. induction H as [|n all Hn _ IH]; [constructor|].
  constructor; [apply is_object_not_null, Hn|exact IH].
Qed.

Lemma notes_store_read (st st' : Storage) (v : value) :
  notes_store st -> lsReadAll st = (Ok v, st') -> notes_store st'.
Proof.
  intros (all & st0 & E & H) Hr. rewrite Hr in E. injection E as -> <-.
  exists all, st'. split; [eapply lsReadAll_again, Hr|exact H].
Qed.

Lemma notes_store_written (notes : list value) (st : Storage) :
  Forall is_object notes -> notes_store (snd (lsWriteAll notes st)).
Proof.
  intros H. exists (List.map jsonify notes), (snd (lsWriteAll notes st)).
  split; [apply lsReadAll_written|].
  induction H; constructor; [apply jsonify_is_object|]; assumption.
Qed.

(** A storage without the key, or with a text that is not JSON, reads as
    the empty collection. *)
Lemma notes_store_fresh (st : Storage) :
  (forall raw, st !! LS_KEY = Some raw -> JSON_parse raw = None) ->
  notes_store st.
Proof.
  intros H. destruct (lsReadAll_spec st) as (v & st' & E & _ & _ & Hst).
  exists [], st'. split; [|constructor].
  revert E. unfold lsReadAll, getItem.
  destruct (st !! LS_KEY) as [raw|] eqn:Eraw; [|intros [= <- <-]; reflexivity].
  destruct (is_empty raw); [intros [= <- <-]; reflexivity|].
  rewrite (H raw eq_refl). intros [= <- <-]. reflexivity.
Qed.

Section StoreInvariant.

Variable API_BASE : jstr.
Variable fetch : Request -> result Response.
Variable Date_parse : value -> option Z.
Hypothesis local_mode : isBackendConfigured API_BASE = false.

(** Whatever it is given and whether it returns or throws, each of
    [createNote], [updateNote] and [deleteNote] leaves a storage that
    reads as an array of objects when it found one. *)
Lemma notes_store_createNote (now : Z) (rnd : jstr) (note : value)
      (st : Storage) :
  notes_store st ->
  notes_store (snd (createNote API_BASE fetch Date_parse now rnd note st)).
Proof.
  intros Hst. pose proof Hst as (all & st' & Hread & Hall).
  pose proof (notes_store_read st st' _ Hst Hread) as Hst'.
  unfold createNote. rewrite local_mode. unfold mbindM, lift, ret.
  rewrite Hread. cbn [toISOString].
  destruct (get note k_id); [|exact Hst'].
  destruct (get note k_title); [|exact Hst'].
  destruct (get note k_content); [|exact Hst']. cbn [as_array].
  apply notes_store_written. constructor; [eexists; reflexivity|exact Hall].
Qed.

Lemma notes_store_updateNote (now : Z) (id patch : value) (st : Storage) :
  notes_store st ->
  notes_store (snd (updateNote API_BASE fetch Date_parse now id patch st)).
Proof.
  intros Hst. pose proof Hst as (all & st' & Hread & Hall).
  pose proof (notes_store_read st st' _ Hst Hread) as Hst'.
  unfold updateNote. rewrite local_mode. unfold mbindM, lift, ret, throw.
  rewrite Hread. cbn [as_array].
  destruct (arr_findIndex (id_is id) all) as [[idx|]|]; try exact Hst'.
  cbn [toISOString]. apply notes_store_written.
  apply Forall_insert; [exact Hall|eexists; reflexivity].
Qed.

Lemma notes_store_deleteNote (id : value) (st : Storage) :
  notes_store st ->
  notes_store (snd (deleteNote API_BASE fetch id st)).
Proof.
  intros Hst. pose proof Hst as (all & st' & Hread & Hall).
  pose proof (notes_store_read st st' _ Hst Hread) as Hst'.
  unfold deleteNote. rewrite local_mode. unfold mbindM, lift, ret.
  rewrite Hread. cbn [as_array].
  destruct (arr_filter (id_is_not id) all) as [next|] eqn:E; [|exact Hst'].
  apply notes_store_written.
  clear -E Hall. revert next E.
  induction Hall as [|n all Hn _ IH]; intros next E; simpl in E.
  - injection E as <-. constructor.
  - destruct (id_is_not id n) as [b|]; [|discriminate]. cbn [bind] in E.
    destruct (arr_filter (id_is_not id) all) as [r|]; [|discriminate].
    cbn [bind] in E. injection E as <-.
    destruct b; [constructor; [exact Hn|]|]; apply IH; reflexivity.
Qed.

End StoreInvariant.

(** ** Reading in local mode *)

Section LocalMode.

Variable API_BASE : jstr.
Variable fetch : Request -> result Response.
Variable Date_parse : value -> option Z.
Hypothesis local_mode : isBackendConfigured API_BASE = false.

Lemma fetchNotes_local (now : Z) (st : Storage) :
  fetchNotes API_BASE fetch Date_parse now st = lsReadAll st.
Proof. unfold fetchNotes. rewrite local_mode. reflexivity. Qed.

Lemma fetchNote_local (now : Z) (id : value) (st : Storage) (v : value)
      (st' : Storage) (all : list value) :
  lsReadAll st = (Ok v, st') -> v = VArr all ->
  fetchNote API_BASE fetch Date_parse now id st =
  (do n <- arr_find (id_is id) all; Ok (or_else n VNull), st').
Proof.
  intros H ->. unfold fetchNote. rewrite local_mode.
  unfold mbindM, lift, ret. rewrite H. cbn [as_array].
  destruct (arr_find (id_is id) all); reflexivity.
Qed.

End LocalMode.

(** C4, as stated, fails for the empty string: it is not valid JSON, the
    read returns the empty collection, and the key is still there. *)
Lemma empty_string_is_kept :
  let st : Storage := {[ LS_KEY := [] ]} in
  JSON_parse [] = None /\
  fetchNotes no_backend no_network no_date_parse 0 st = (Ok (VArr []), st) /\
  st !! LS_KEY = Some [].
Proof. cbv zeta. repeat apply conj; vm_compute; reflexivity. Qed.

(** C4, amended: when the storage key holds a string that is not valid
    JSON, [listAll] in local mode returns the empty collection and no
    error reaches the caller; the key is deleted when that string is not
    empty, and left as it is when it is the empty string. *)
Theorem corrupt_store_reads_empty (API_BASE : jstr)
        (fetch : Request -> result Response)
        (Date_parse : value -> option Z) (now : Z) (st : Storage)
        (raw : jstr) :
  isBackendConfigured API_BASE = false ->
  st !! LS_KEY = Some raw ->
  JSON_parse raw = None ->
  fetchNotes API_BASE fetch Date_parse now st =
  (Ok (VArr []), if is_empty raw then st else delete LS_KEY st).
Proof.
  intros Hl Hraw Hp. rewrite fetchNotes_local by assumption.
  unfold lsReadAll, getItem, removeItem. rewrite Hraw.
  destruct (is_empty raw); [reflexivity|]. rewrite Hp. reflexivity.
Qed.

Lemma corrupt_store_reads_empty_witness :
  let st : Storage := {[ LS_KEY := js "{bad" ]} in
  isBackendConfigured no_backend = false /\
  st !! LS_KEY = Some (js "{bad") /\
  JSON_parse (js "{bad") = None /\
  fetchNotes no_backend no_network no_date_parse 0 st = (Ok (VArr []), ∅).
Proof.
  cbv zeta. split; [reflexivity|]. split; [reflexivity|].
  split; [reflexivity|].
  rewrite (corrupt_store_reads_empty no_backend no_network no_date_parse 0
             {[ LS_KEY := js "{bad" ]} (js "{bad"));
    reflexivity.
Defined.

(** A stored note without title, content or [updatedAt] is returned
    without them, where the normalizer would have filled them in. *)
Lemma stored_note_without_fields :
  let st : Storage := {[ LS_KEY := json_text "[{'id':'a'}]" ]} in
  let n := VObj [(k_id, VStr (js "a"))] in
  fst (fetchNotes no_backend no_network no_date_parse 0 st) = Ok (VArr [n]) /\
  get n k_title = Ok VUndefined /\
  normalize no_date_parse 0 n =
  Ok (VObj [(k_id, VStr (js "a")); (k_title, VStr []); (k_content, VStr []);
            (k_updatedAt, VStr (js "1970-01-01T00:00:00.000Z"))]).
Proof. cbv zeta. repeat apply conj; vm_compute; reflexivity. Qed.

(** C10: in local mode [listAll] returns what [JSON.parse] made of the
    stored text, and [getOne] returns the element it finds, as they are:
    no element goes through [normalize], whatever fields it has or
    lacks. *)
Theorem local_reads_are_not_normalized (API_BASE : jstr)
        (fetch : Request -> result Response)
        (Date_parse : value -> option Z) (now : Z) (st : Storage)
        (raw : jstr) (v : value) :
  isBackendConfigured API_BASE = false ->
  st !! LS_KEY = Some raw ->
  raw <> [] ->
  JSON_parse raw = Some v ->
  fetchNotes API_BASE fetch Date_parse now st = (Ok v, st) /\
  forall all id n,
    v = VArr all ->
    arr_find (id_is id) all = Ok n ->
    truthy n = true ->
    In n all /\
    fetchNote API_BASE fetch Date_parse now id st = (Ok n, st).
Proof.
  intros Hl Hraw Hne Hp.
  assert (lsReadAll st = (Ok v, st)) as Hread.
  { unfold lsReadAll, getItem. rewrite Hraw.
    destruct raw; [contradiction|]. cbn [is_empty]. rewrite Hp. reflexivity. }
  split; [rewrite fetchNotes_local by assumption; exact Hread|].
  intros all id n -> Hfind Ht. split.
  - clear -Hfind Ht. induction all as [|x all IH]; simpl in Hfind.
    + injection Hfind as <-. discriminate Ht.
    + destruct (id_is id x) as [[]|]; simpl in Hfind; try discriminate.
      * injection Hfind as <-. left. reflexivity.
      * right. apply IH, Hfind.
  - erewrite fetchNote_local by eauto. rewrite Hfind. cbn [bind].
    unfold or_else. rewrite Ht. reflexivity.
Qed.

Lemma local_reads_are_not_normalized_witness :
  let raw := json_text "[{'id':'a'}]" in
  let n := VObj [(k_id, VStr (js "a"))] in
  let st : Storage := {[ LS_KEY := raw ]} in
  isBackendConfigured no_backend = false /\
  st !! LS_KEY = Some raw /\ raw <> [] /\ JSON_parse raw = Some (VArr [n]) /\
  fetchNotes no_backend no_network no_date_parse 0 st = (Ok (VArr [n]), st) /\
  fetchNote no_backend no_network no_date_parse 0 (VStr (js "a")) st =
  (Ok n, st).
Proof.
  cbv zeta.
  pose proof (local_reads_are_not_normalized no_backend no_network
                no_date_parse 0 {[ LS_KEY := json_text "[{'id':'a'}]" ]}
                (json_text "[{'id':'a'}]") (VArr [VObj [(k_id, VStr (js "a"))]])
                eq_refl eq_refl ltac:(discriminate) eq_refl) as [H1 H2].
  split; [reflexivity|]. split; [reflexivity|]. split; [discriminate|].
  split; [reflexivity|]. split; [exact H1|].
  apply (H2 [VObj [(k_id, VStr (js "a"))]] (VStr (js "a"))
            (VObj [(k_id, VStr (js "a"))]) eq_refl eq_refl eq_refl).
Defined.

(** ** Update and delete in local mode *)

Lemma get_Ok n k : n <> VNull -> n <> VUndefined -> exists x, get n k = Ok x.
Proof. destruct n; simpl; intros H1 H2; try contradiction; eauto. Qed.

Lemma stable_not_undefined n : jsonify n = n -> n <> VUndefined.
Proof. intros H ->. discriminate H. Qed.

Lemma arr_filter_total id all :
  Forall (fun n => n <> VNull) all ->
  Forall (fun n => jsonify n = n) all ->
  exists next,
    arr_filter (id_is_not id) all = Ok next /\
    Forall (fun n => jsonify n = n) next /\
    Forall (fun n => n <> VNull) next /\
    Forall (fun n => id_is id n = Ok false) next /\
    arr_filter (id_is_not id) next = Ok next.
Proof.
  induction 1 as [|n all Hn _ IH]; intros Hs.
  - exists []. repeat split; constructor.
  - inversion Hs as [|? ? Hsn Hsall]; subst.
    destruct (IH Hsall) as (next & E & H1 & H2 & H3 & H4).
    destruct (get_Ok n k_id Hn (stable_not_undefined n Hsn)) as [x Ex].
    cbn [arr_filter]. unfold id_is_not at 1. rewrite Ex. cbn [bind].
    rewrite E. cbn [bind].
    destruct (strict_eq x id) eqn:Eq; cbn [negb].
    + exists next. auto.
    + exists (n :: next). split; [reflexivity|].
      split; [constructor; assumption|]. split; [constructor; assumption|].
      split.
      * constructor; [|assumption]. unfold id_is. rewrite Ex. cbn [bind].
        rewrite Eq. reflexivity.
      * cbn [arr_filter]. unfold id_is_not at 1. rewrite Ex. cbn [bind].
        rewrite H4. cbn [bind]. rewrite Eq. reflexivity.
Qed.

(** C7: in local mode, [update] with an id that no note of the collection
    has fails with the error [Note not found] and writes nothing: the
    storage is what the read left (the storage itself, unless the read
    discarded an unparsable text), and the collection reads as before. *)
Theorem update_unknown_id_fails (API_BASE : jstr)
        (fetch : Request -> result Response)
        (Date_parse : value -> option Z) (now : Z) (id patch : value)
        (st st' : Storage) (all : list value) :
  isBackendConfigured API_BASE = false ->
  lsReadAll st = (Ok (VArr all), st') ->
  arr_findIndex (id_is id) all = Ok None ->
  updateNote API_BASE fetch Date_parse now id patch st =
  (Throw (Error msg_not_found), st') /\
  lsReadAll st' = (Ok (VArr all), st') /\
  ((forall raw, st !! LS_KEY = Some raw -> JSON_parse raw = None -> raw = []) ->
   st' = st).
Proof.
  intros Hl Hread Hfind. split; [|split].
  - unfold updateNote. rewrite Hl. unfold mbindM, lift, throw.
    rewrite Hread. cbn [as_array]. rewrite Hfind. reflexivity.
  - eapply lsReadAll_again, Hread.
  - intros Hraw. destruct (lsReadAll_spec st) as (v0 & st0 & E & _ & _ & Hst).
    rewrite Hread in E. injection E as <- <-.
    destruct Hst as [Hst|(raw & E1 & E2 & E3 & _)]; [exact Hst|].
    destruct (E2 (Hraw raw E1 E3)).
Qed.

Lemma update_unknown_id_fails_witness :
  let raw := json_text "[{'id':'a','title':'t'}]" in
  let all := [VObj [(k_id, VStr (js "a")); (k_title, VStr (js "t"))]] in
  let st : Storage := {[ LS_KEY := raw ]} in
  isBackendConfigured no_backend = false /\
  lsReadAll st = (Ok (VArr all), st) /\
  arr_findIndex (id_is (VStr (js "b"))) all = Ok None /\
  updateNote no_backend no_network no_date_parse 5 (VStr (js "b"))
    (VObj [(k_title, VStr (js "x"))]) st =
  (Throw (Error msg_not_found), st).
Proof.
  cbv zeta. split; [reflexivity|]. split; [reflexivity|].
  split; [reflexivity|].
  apply (update_unknown_id_fails no_backend no_network no_date_parse 5
           (VStr (js "b")) (VObj [(k_title, VStr (js "x"))])
           {[ LS_KEY := json_text "[{'id':'a','title':'t'}]" ]}
           {[ LS_KEY := json_text "[{'id':'a','title':'t'}]" ]}
           [VObj [(k_id, VStr (js "a")); (k_title, VStr (js "t"))]]
           ltac:(reflexivity) ltac:(reflexivity) ltac:(reflexivity)).
Defined.



(** ** Create in local mode *)

Lemma or_else_defined a b : b <> VUndefined -> or_else a b <> VUndefined.
Proof.
  unfold or_else. intros Hb. destruct (truthy a) eqn:E; [|exact Hb].
  intros ->. discriminate E.
Qed.

Lemma jsonify_note a b c d :
  a <> VUndefined -> b <> VUndefined -> c <> VUndefined -> d <> VUndefined ->
  jsonify (VObj [(k_id, a); (k_title, b); (k_content, c); (k_updatedAt, d)]) =
  VObj [(k_id, jsonify a); (k_title, jsonify b); (k_content, jsonify c);
        (k_updatedAt, jsonify d)].
Proof.
  intros Ha Hb Hc Hd. cbn [jsonify].
  rewrite !json_members_defined by assumption. reflexivity.
Qed.

Lemma jsonify_string_or_falsy a s :
  string_or_falsy a -> jsonify (or_else a (VStr s)) = or_else a (VStr s).
Proof.
  unfold or_else. intros [H|[s' ->]].
  - rewrite H. reflexivity.
  - destruct (truthy (VStr s')); reflexivity.
Qed.

Lemma jsonify_new_note now rnd id title content :
  jsonify (new_note now rnd id title content) =
  VObj [(k_id, jsonify (or_else id (VStr (js "n_" ++ rnd))));
        (k_title, jsonify (or_else title (VStr str_Untitled)));
        (k_content, jsonify (or_else content (VStr [])));
        (k_updatedAt, VStr (iso_of_time now))].
Proof.
  unfold new_note. rewrite jsonify_note;
    try (apply or_else_defined); try discriminate. reflexivity.
Qed.

Section CreateLocal.

Variable API_BASE : jstr.
Variable fetch : Request -> result Response.
Variable Date_parse : value -> option Z.
Hypothesis local_mode : isBackendConfigured API_BASE = false.

Lemma createNote_local (now : Z) (rnd : jstr) (note : value)
      (st st' : Storage) (all : list value) (id title content : value) :
  lsReadAll st = (Ok (VArr all), st') ->
  get note k_id = Ok id ->
  get note k_title = Ok title ->
  get note k_content = Ok content ->
  createNote API_BASE fetch Date_parse now rnd note st =
  (Ok (new_note now rnd id title content),
   snd (lsWriteAll (new_note now rnd id title content :: all) st')).
Proof.
  intros Hread Hid Ht Hc. unfold createNote. rewrite local_mode.
  unfold mbindM, lift, ret. rewrite Hread. cbn [toISOString].
  rewrite Hid, Ht, Hc. reflexivity.
Qed.

(** A successful [createNote] has read an array and the fields of its
    input. *)
Lemma createNote_Ok (now : Z) (rnd : jstr) (note : value)
      (st st1 : Storage) (n : value) :
  createNote API_BASE fetch Date_parse now rnd note st = (Ok n, st1) ->
  exists all st' id title content,
    lsReadAll st = (Ok (VArr all), st') /\
    get note k_id = Ok id /\ get note k_title = Ok title /\
    get note k_content = Ok content.
Proof.
  unfold createNote. rewrite local_mode. unfold mbindM, lift, ret.
  destruct (lsReadAll_spec st) as (v & st' & E & _). rewrite E.
  cbn [toISOString].
  destruct (get note k_id) as [id|]; [|discriminate].
  destruct (get note k_title) as [title|]; [|discriminate].
  destruct (get note k_content) as [content|]; [|discriminate].
  destruct v as [| | | | |all|]; try discriminate. eauto 10.
Qed.

Lemma read_after_create (now : Z) (rnd : jstr) (note : value)
      (st st' : Storage) (all : list value) (id title content : value) :
  lsReadAll st = (Ok (VArr all), st') ->
  get note k_id = Ok id ->
  get note k_title = Ok title ->
  get note k_content = Ok content ->
  let st1 := snd (createNote API_BASE fetch Date_parse now rnd note st) in
  lsReadAll st1 =
  (Ok (VArr (jsonify (new_note now rnd id title content) :: all)), st1).
Proof.
  intros Hread Hid Ht Hc. cbv zeta.
  rewrite (createNote_local now rnd note st st' all id title content)
    by assumption.
  cbn [snd]. rewrite lsReadAll_written. cbn [List.map].
  rewrite (stable_map all (lsReadAll_stable _ _ _ Hread)). reflexivity.
Qed.

End CreateLocal.

(** C1, as stated, fails for an empty title: the note is stored and read
    back with the title [Untitled]. *)
Lemma empty_title_is_replaced :
  let note := VObj [(k_title, VStr []); (k_content, VStr (js "x"))] in
  let created :=
    VObj [(k_id, VStr (js "n_abc")); (k_title, VStr (js "Untitled"));
          (k_content, VStr (js "x"));
          (k_updatedAt, VStr (js "1970-01-01T00:00:00.000Z"))] in
  let c := createNote no_backend no_network no_date_parse 0 (js "abc") note ∅ in
  fst c = Ok created /\
  fst (fetchNote no_backend no_network no_date_parse 1 (VStr (js "n_abc"))
         (snd c)) = Ok created /\
  get note k_title = Ok (VStr []) /\
  get created k_title = Ok (VStr (js "Untitled")).
Proof. cbv zeta. repeat apply conj; vm_compute; reflexivity. Qed.

(** C1, amended: in local mode, a note created with
    [create({title, content})] for a non-empty title has an id of the
    code's making and the clock's time as [updatedAt], and a following
    [getOne] with that id returns it with the title and content passed
    (an empty title is stored as [Untitled]). *)
Theorem create_then_getOne (API_BASE : jstr)
        (fetch : Request -> result Response)
        (Date_parse : value -> option Z) (now now' : Z) (rnd : jstr)
        (title content : jstr) (st st1 : Storage) (n : value) :
  isBackendConfigured API_BASE = false ->
  title <> [] ->
  createNote API_BASE fetch Date_parse now rnd
    (VObj [(k_title, VStr title); (k_content, VStr content)]) st =
  (Ok n, st1) ->
  n = VObj [(k_id, VStr (js "n_" ++ rnd)); (k_title, VStr title);
            (k_content, VStr content);
            (k_updatedAt, VStr (iso_of_time now))] /\
  fetchNote API_BASE fetch Date_parse now' (VStr (js "n_" ++ rnd)) st1 =
  (Ok n, st1).
Proof.
  intros Hl Ht Hc.
  destruct (createNote_Ok API_BASE fetch Date_parse Hl _ _ _ _ _ _ Hc)
    as (all & st' & id & t & c & Hread & Hid & Htitle & Hcontent).
  injection Hid as <-. injection Htitle as <-. injection Hcontent as <-.
  set (note := VObj [(k_title, VStr title); (k_content, VStr content)]) in *.
  assert (get note k_id = Ok VUndefined) as Hid by reflexivity.
  assert (get note k_title = Ok (VStr title)) as Htitle by reflexivity.
  assert (get note k_content = Ok (VStr content)) as Hcontent by reflexivity.
  pose proof (read_after_create API_BASE fetch Date_parse Hl now rnd note
                st st' all _ _ _ Hread Hid Htitle Hcontent) as Hread1.
  cbv zeta in Hread1. rewrite Hc in Hread1. cbn [snd] in Hread1.
  rewrite (createNote_local API_BASE fetch Date_parse Hl now rnd note st st'
             all _ _ _ Hread Hid Htitle Hcontent) in Hc.
  injection Hc as <- <-.
  assert (new_note now rnd VUndefined (VStr title) (VStr content) =
          VObj [(k_id, VStr (js "n_" ++ rnd)); (k_title, VStr title);
                (k_content, VStr content);
                (k_updatedAt, VStr (iso_of_time now))]) as En.
  { unfold new_note, or_else. cbn [truthy]. destruct title; [contradiction|].
    cbn [is_empty negb]. destruct content; reflexivity. }
  split; [exact En|].
  erewrite fetchNote_local; [|exact Hl|exact Hread1|reflexivity].
  rewrite En. cbn [jsonify json_members].
  cbn [arr_find]. unfold id_is at 1.
  change (get (VObj (set_props []
            [(k_id, VStr (js "n_" ++ rnd)); (k_title, VStr title);
             (k_content, VStr content);
             (k_updatedAt, VStr (iso_of_time now))])) k_id)
    with (Ok (VStr (js "n_" ++ rnd))).
  cbn [bind]. rewrite strict_eq_str_refl. reflexivity.
Qed.



(** ** Sequences of creates *)

Lemma chosen_id_get rnd note s :
  chosen_id rnd note = Ok (VStr s) ->
  exists id title content,
    get note k_id = Ok id /\ get note k_title = Ok title /\
    get note k_content = Ok content /\
    or_else id (VStr (js "n_" ++ rnd)) = VStr s.
Proof.
  unfold chosen_id. intros H.
  destruct (get note k_id) as [id|] eqn:Eid; [|discriminate H].
  cbn [bind] in H. injection H as H. exists id.
  assert (forall k, exists x, get note k = Ok x) as Hget.
  { intros k. destruct note; try discriminate Eid; simpl; eauto. }
  destruct (Hget k_title) as [title Ht].
  destruct (Hget k_content) as [content Hc]. eauto 10.
Qed.


(** The same happens without any input id when [Math.random] yields the
    same token twice. *)
Lemma same_token_twice :
  let st := create_seq no_backend no_network no_date_parse
              [(0, js "r", VObj []); (1, js "r", VObj [])] ∅ in
  exists n1 n2,
    fst (lsReadAll st) = Ok (VArr [n1; n2]) /\
    get n1 k_id = Ok (VStr (js "n_r")) /\ get n2 k_id = Ok (VStr (js "n_r")).
Proof.
  cbv zeta.
  exists (VObj [(k_id, VStr (js "n_r")); (k_title, VStr (js "Untitled"));
                (k_content, VStr []);
                (k_updatedAt, VStr (js "1970-01-01T00:00:00.001Z"))]),
         (VObj [(k_id, VStr (js "n_r")); (k_title, VStr (js "Untitled"));
                (k_content, VStr []);
                (k_updatedAt, VStr (js "1970-01-01T00:00:00.000Z"))]).
  repeat apply conj; vm_compute; reflexivity.
Qed.



(** ** Update in local mode *)

Lemma arr_findIndex_found p all idx :
  arr_findIndex p all = Ok (Some idx) ->
  exists n, all !! idx = Some n /\ p n = Ok true.
Proof.
  revert idx. induction all as [|x all IH]; intros idx H; simpl in H.
  - discriminate.
  - destruct (p x) as [[]|] eqn:E; simpl in H; try discriminate.
    + injection H as <-. exists x. auto.
    + destruct (arr_findIndex p all) as [[i|]|]; simpl in H; try discriminate.
      injection H as <-. destruct (IH i eq_refl) as (n & Hn & Hp).
      exists n. auto.
Qed.

Lemma json_members_lookup ps k :
  List.NoDup (List.map fst ps) ->
  lookup_prop (json_members jsonify ps) k =
  match lookup_prop ps k with
  | Some VUndefined | None => None
  | Some v => Some (jsonify v)
  end.
Proof.
  induction ps as [|[k' x] ps IH]; intros Hnd; [reflexivity|].
  inversion Hnd as [|? ? Hnotin Hnd']; subst.
  assert (jstr_eqb k' k = true -> lookup_prop ps k = None) as Hk.
  { intros E. apply jstr_eqb_eq in E. subst k'.
    apply lookup_prop_None. exact Hnotin. }
  assert (x = VUndefined \/ x <> VUndefined) as [->|Hd]
    by (destruct x; auto; right; discriminate).
  - rewrite json_members_undefined, IH by assumption. cbn [lookup_prop].
    destruct (jstr_eqb k' k) eqn:E.
    + rewrite (Hk eq_refl). reflexivity.
    + destruct (lookup_prop ps k); reflexivity.
  - rewrite json_members_defined by assumption. cbn [lookup_prop].
    rewrite IH by assumption.
    destruct (jstr_eqb k' k) eqn:E.
    + rewrite (Hk eq_refl). destruct x; try reflexivity. contradiction.
    + destruct (lookup_prop ps k) as [[]|]; reflexivity.
Qed.

(** Reading a property of an object that went through JSON. *)
Lemma get_jsonify_object ps k :
  List.NoDup (List.map fst ps) ->
  get (jsonify (VObj ps)) k =
  Ok (match lookup_prop ps k with
      | Some VUndefined | None => VUndefined
      | Some v => jsonify v
      end).
Proof.
  intros Hnd. cbn [jsonify get]. rewrite lookup_set_props. cbn [lookup_prop].
  rewrite json_members_lookup by assumption.
  destruct (lookup_prop ps k) as [[]|]; reflexivity.
Qed.

Lemma json_members_values ps k v :
  lookup_prop (json_members jsonify ps) k = Some v ->
  exists x, v = jsonify x.
Proof.
  induction ps as [|[k' x] ps IH]; [discriminate|].
  assert (x = VUndefined \/ x <> VUndefined) as [->|Hd]
    by (destruct x; auto; right; discriminate).
  - rewrite json_members_undefined. exact IH.
  - rewrite json_members_defined by assumption. cbn [lookup_prop].
    destruct (lookup_prop (json_members jsonify ps) k) as [y|].
    + intros [= <-]. apply IH. reflexivity.
    + destruct (jstr_eqb k' k); [|discriminate]. intros [= <-]. eauto.
Qed.

Lemma jsonify_not_undefined x : jsonify x <> VUndefined.
Proof. destruct x as [| | |[]| | |]; discriminate. Qed.

Lemma stable_object_lookup ops k v :
  jsonify (VObj ops) = VObj ops ->
  lookup_prop ops k = Some v ->
  jsonify v = v /\ v <> VUndefined.
Proof.
  cbn [jsonify]. intros [= H] Hv. rewrite <- H in Hv.
  rewrite lookup_set_props in Hv. cbn [lookup_prop] in Hv.
  destruct (lookup_prop (json_members jsonify ops) k) as [y|] eqn:E;
    [|discriminate].
  injection Hv as ->. destruct (json_members_values _ _ _ E) as [x ->].
  split; [apply jsonify_idem|apply jsonify_not_undefined].
Qed.

(** The note [updateNote] builds from the note found and the patch. *)
Lemma merged_lookup old patch iso k :
  lookup_prop (set_prop (spread (spread [] old) patch) k_updatedAt iso) k =
  if jstr_eqb k_updatedAt k then Some iso
  else match lookup_prop (own_props patch) k with
       | Some x => Some x
       | None => lookup_prop (own_props old) k
       end.
Proof.
  rewrite lookup_set_prop. unfold spread. rewrite !lookup_set_props.
  cbn [lookup_prop]. destruct (jstr_eqb k_updatedAt k); [reflexivity|].
  destruct (lookup_prop (own_props patch) k); [reflexivity|].
  destruct (lookup_prop (own_props old) k); reflexivity.
Qed.

Lemma merged_NoDup old patch iso :
  List.NoDup
    (List.map fst (set_prop (spread (spread [] old) patch) k_updatedAt iso)).
Proof.
  apply set_prop_NoDup. unfold spread. do 2 apply set_props_NoDup.
  constructor.
Qed.

Lemma insert_stable (all : list value) :
  Forall (fun n => jsonify n = n) all ->
  forall idx x,
    List.map jsonify (<[idx := x]> all) = <[idx := jsonify x]> all.
Proof.
  induction 1 as [|y all Hy Hall IH]; intros idx x; [reflexivity|].
  destruct idx as [|idx]; simpl.
  - f_equal. apply map_id_Forall, Hall.
  - rewrite Hy, IH. reflexivity.
Qed.

Section UpdateLocal.

Variable API_BASE : jstr.
Variable fetch : Request -> result Response.
Variable Date_parse : value -> option Z.
Hypothesis local_mode : isBackendConfigured API_BASE = false.

Lemma updateNote_local (now : Z) (id patch : value) (st st' : Storage)
      (all : list value) (idx : nat) (old : value) :
  lsReadAll st = (Ok (VArr all), st') ->
  arr_findIndex (id_is id) all = Ok (Some idx) ->
  all !! idx = Some old ->
  let updated :=
    VObj (set_prop (spread (spread [] old) patch) k_updatedAt
            (VStr (iso_of_time now))) in
  updateNote API_BASE fetch Date_parse now id patch st =
  (Ok updated, snd (lsWriteAll (<[idx := updated]> all) st')).
Proof.
  intros Hread Hfind Hold. cbv zeta. unfold updateNote.
  rewrite local_mode. unfold mbindM, lift, ret. rewrite Hread.
  cbn [as_array]. rewrite Hfind. cbn [toISOString]. rewrite Hold.
  reflexivity.
Qed.

End UpdateLocal.



Lemma create_then_getOne_witness :
  let note := VObj [(k_title, VStr (js "Groceries"));
                    (k_content, VStr (js "milk"))] in
  let n := VObj [(k_id, VStr (js "n_k3j2h1g0"));
                 (k_title, VStr (js "Groceries"));
                 (k_content, VStr (js "milk"));
                 (k_updatedAt, VStr (js "2023-11-14T22:13:20.000Z"))] in
  let c := createNote no_backend no_network no_date_parse 1700000000000
             (js "k3j2h1g0") note ∅ in
  isBackendConfigured no_backend = false /\
  js "Groceries" <> [] /\
  c = (Ok n, snd c) /\
  fetchNote no_backend no_network no_date_parse 1700000000001
    (VStr (js "n_k3j2h1g0")) (snd c) = (Ok n, snd c).
Proof.
  cbv zeta.
  assert (js "Groceries" <> []) as Hne by discriminate.
  assert (createNote no_backend no_network no_date_parse 1700000000000
            (js "k3j2h1g0")
            (VObj [(k_title, VStr (js "Groceries"));
                   (k_content, VStr (js "milk"))]) ∅ =
          (Ok (VObj [(k_id, VStr (js "n_k3j2h1g0"));
                     (k_title, VStr (js "Groceries"));
                     (k_content, VStr (js "milk"));
                     (k_updatedAt, VStr (js "2023-11-14T22:13:20.000Z"))]),
           snd (createNote no_backend no_network no_date_parse 1700000000000
                  (js "k3j2h1g0")
                  (VObj [(k_title, VStr (js "Groceries"));
                         (k_content, VStr (js "milk"))]) ∅))) as Hc
    by (vm_compute; reflexivity).
  split; [reflexivity|]. split; [exact Hne|]. split; [exact Hc|].
  destruct (create_then_getOne no_backend no_network no_date_parse
              1700000000000 1700000000001 (js "k3j2h1g0") (js "Groceries")
              (js "milk") ∅ _ _ ltac:(reflexivity) Hne Hc) as [_ H].
  exact H.
Defined.


(** ** The scenario of the specification *)

(** From an empty store: create a note titled [Groceries], set its
    content to [milk] five milliseconds later, remove it; the collection
    is empty again. *)
Lemma groceries_scenario :
  let created :=
    VObj [(k_id, VStr (js "n_k3j2h1g0")); (k_title, VStr (js "Groceries"));
          (k_content, VStr []);
          (k_updatedAt, VStr (js "2023-11-14T22:13:20.000Z"))] in
  let updated :=
    VObj [(k_id, VStr (js "n_k3j2h1g0")); (k_title, VStr (js "Groceries"));
          (k_content, VStr (js "milk"));
          (k_updatedAt, VStr (js "2023-11-14T22:13:20.005Z"))] in
  let id := VStr (js "n_k3j2h1g0") in
  let c := createNote no_backend no_network no_date_parse 1700000000000
             (js "k3j2h1g0") (VObj [(k_title, VStr (js "Groceries"))]) ∅ in
  let u := updateNote no_backend no_network no_date_parse 1700000000005 id
             (VObj [(k_content, VStr (js "milk"))]) (snd c) in
  let d := deleteNote no_backend no_network id (snd u) in
  fst c = Ok created /\ fst u = Ok updated /\
  iso_later (js "2023-11-14T22:13:20.005Z") (js "2023-11-14T22:13:20.000Z") /\
  fst d = Ok (VBool true) /\
  fst (fetchNotes no_backend no_network no_date_parse 1700000000010 (snd d)) =
  Ok (VArr []).
Proof.
  cbv zeta. repeat apply conj; vm_compute; reflexivity.
Qed.

(** ** The normalizer *)

Lemma time_clip_valid t t' : time_clip t = Some t' -> time_valid t' = true.
Proof.
  unfold time_clip. destruct (time_valid t) eqn:E; [|discriminate].
  intros [= <-]. exact E.
Qed.

Lemma Date_of_valid Date_parse u t :
  Date_of Date_parse u = Some t -> time_valid t = true.
Proof.
  destruct u as [| |[]|[| |m e]|s|l|ps]; cbn [Date_of];
    try discriminate; try (intros [= <-]; reflexivity);
    try apply time_clip_valid;
    (destruct (Date_parse _); [apply time_clip_valid|discriminate]).
Qed.

Lemma or_else_string v :
  string_or_falsy v ->
  exists s, or_else v (VStr []) = VStr s /\ (truthy v = false -> s = []).
Proof.
  unfold or_else. intros [H|[s ->]].
  - rewrite H. eauto.
  - destruct (truthy (VStr s)) eqn:E; eauto. exists s. split; [reflexivity|].
    discriminate.
Qed.

(** C3, as stated, fails: a title that is truthy and not a string comes
    out as it went in. *)
Lemma non_string_title_is_kept :
  normalize no_date_parse 0
    (VObj [(k_id, VStr (js "a")); (k_title, VNum (Dec 42 0))]) =
  Ok (VObj [(k_id, VStr (js "a")); (k_title, VNum (Dec 42 0));
            (k_content, VStr []);
            (k_updatedAt, VStr (js "1970-01-01T00:00:00.000Z"))]).
Proof. vm_compute. reflexivity. Qed.

(** Nor is the normalizer total: an [updatedAt] that is not a valid date
    makes [toISOString] throw. *)
Lemma invalid_date_throws Date_parse now note u :
  get note k_updatedAt = Ok u ->
  truthy u = true ->
  Date_of Date_parse u = None ->
  normalize Date_parse now note = Throw RangeError.
Proof.
  intros Hu Ht Hd. unfold normalize.
  assert (forall k, exists x, get note k = Ok x) as Hget.
  { intros k. destruct note; try discriminate Hu; simpl; eauto. }
  destruct (Hget k_id) as [id ->]. destruct (Hget k_title) as [title ->].
  destruct (Hget k_content) as [content ->]. rewrite Hu. cbn [bind].
  rewrite Ht, Hd. reflexivity.
Qed.

(** C3, amended: for every input object whose title and content are each
    a string or falsy (left out, for one), and whose [updatedAt] is falsy
    or makes a valid date, the normalizer returns an object with the id
    as it is, a string title and a string content (empty for a falsy
    one), and an [updatedAt] string in the ISO format: that of the clock
    when the input's is falsy, else that of the input's date. *)
Theorem normalize_canonical (Date_parse : value -> option Z) (now : Z)
        (note id title content u : value) :
  get note k_id = Ok id ->
  get note k_title = Ok title ->
  get note k_content = Ok content ->
  get note k_updatedAt = Ok u ->
  string_or_falsy title ->
  string_or_falsy content ->
  time_valid now = true ->
  (truthy u = true -> Date_of Date_parse u <> None) ->
  exists t c iso,
    normalize Date_parse now note =
    Ok (VObj [(k_id, id); (k_title, VStr t); (k_content, VStr c);
              (k_updatedAt, VStr iso)]) /\
    (truthy title = false -> t = []) /\
    (truthy content = false -> c = []) /\
    iso8601 iso = true /\
    (truthy u = false -> iso = iso_of_time now) /\
    (forall d, truthy u = true -> Date_of Date_parse u = Some d ->
               iso = iso_of_time d).
Proof.
  intros Hid Ht Hc Hu Hst Hsc Hnow Hdate.
  destruct (or_else_string title Hst) as (t & Et & Ht0).
  destruct (or_else_string content Hsc) as (c & Ec & Hc0).
  unfold normalize. rewrite Hid, Ht, Hc, Hu. cbn [bind]. rewrite Et, Ec.
  destruct (truthy u) eqn:Etu.
  - destruct (Date_of Date_parse u) as [d|] eqn:Ed;
      [|destruct (Hdate eq_refl eq_refl)].
    exists t, c, (iso_of_time d). cbn [toISOString bind].
    repeat split; auto.
    + apply iso_of_time_format. eapply Date_of_valid, Ed.
    + discriminate.
    + intros d' _ [= <-]. reflexivity.
  - exists t, c, (iso_of_time now). cbn [toISOString bind].
    repeat split; auto.
    + apply iso_of_time_format, Hnow.
    + discriminate.
Qed.

Lemma normalize_canonical_witness :
  let note := VObj [(k_id, VNum (Dec 7 0)); (k_title, VNull);
                    (k_updatedAt, VNum (Dec 17 11))] in
  get note k_id = Ok (VNum (Dec 7 0)) /\
  get note k_title = Ok VNull /\
  get note k_content = Ok VUndefined /\
  get note k_updatedAt = Ok (VNum (Dec 17 11)) /\
  string_or_falsy VNull /\ string_or_falsy VUndefined /\
  time_valid 5 = true /\
  Date_of no_date_parse (VNum (Dec 17 11)) <> None /\
  exists t c iso,
    normalize no_date_parse 5 note =
    Ok (VObj [(k_id, VNum (Dec 7 0)); (k_title, VStr t); (k_content, VStr c);
              (k_updatedAt, VStr iso)]) /\
    iso8601 iso = true.
Proof.
  cbv zeta.
  assert (string_or_falsy VNull) as H1 by (left; reflexivity).
  assert (string_or_falsy VUndefined) as H2 by (left; reflexivity).
  assert (Date_of no_date_parse (VNum (Dec 17 11)) <> None) as H3
    by (vm_compute; discriminate).
  repeat (split; [first [reflexivity|assumption]|]).
  destruct (normalize_canonical no_date_parse 5
              (VObj [(k_id, VNum (Dec 7 0)); (k_title, VNull);
                     (k_updatedAt, VNum (Dec 17 11))])
              (VNum (Dec 7 0)) VNull VUndefined (VNum (Dec 17 11))
              ltac:(reflexivity) ltac:(reflexivity) ltac:(reflexivity)
              ltac:(reflexivity) H1 H2 ltac:(reflexivity) (fun _ => H3))
    as (t & c & iso & E & _ & _ & Hiso & _).
  exists t, c, iso. split; [exact E|exact Hiso].
Defined.

(** ** The debounced function *)

Section DebounceFacts.

Import Debounce.

Variable A : Type.
Variable wait : option Z.

Let w : Z := Z.max 0 (wait_of wait).

(** A call made while at most one timer is pending, not yet due,
    cancels it and leaves its own timer as the only one. *)
Lemma call_replaces_pending (s : State A) (c : Z * A) :
  at_most_one s ->
  (forall x, In x (pending s) -> fst c < due x) ->
  let s' := call wait s c in
  invoked s' = invoked s /\
  pending s' = [{| timer_id := next_id s; due := fst c + w;
                     args := snd c |}] /\
  t s' = Some (next_id s).
Proof.
  intros Hone Hdue. cbv zeta. unfold call, advance.
  assert (fire (fst c) (pending s) (invoked s) =
          (pending s, invoked s)) as ->.
  { destruct (pending s) as [|x q]; [reflexivity|]. cbn [fire].
    destruct (Z.leb_spec (due x) (fst c)); [|reflexivity].
    specialize (Hdue x (or_introl eq_refl)). lia. }
  unfold debounce, setTimeout. cbn [t next_id pending invoked].
  split; [reflexivity|]. split; [|reflexivity].
  destruct Hone as [->|(x & -> & ->)].
  - destruct (t s); reflexivity.
  - cbn [clearTimeout List.filter]. rewrite Nat.eqb_refl. reflexivity.
Qed.

Lemma last_cons (l : list (Z * A)) : forall a d,
  List.last (a :: l) d = List.last l a.
Proof.
  induction l as [|b l IH]; intros a d; [reflexivity|].
  change (List.last (a :: b :: l) d) with (List.last (b :: l) d).
  rewrite !IH. reflexivity.
Qed.

Lemma run_burst (calls : list (Z * A)) : forall (c : Z * A) (s : State A),
  at_most_one s ->
  (forall x, In x (pending s) -> fst c < due x) ->
  burst w (c :: calls) ->
  let last := List.last calls c in
  let s' := run wait (c :: calls) s in
  invoked s' = invoked s /\
  exists i, pending s' = [{| timer_id := i; due := fst last + w;
                               args := snd last |}].
Proof.
  induction calls as [|c' calls IH]; intros c s Hone Hdue Hb; cbv zeta.
  - destruct (call_replaces_pending s c Hone Hdue) as (H1 & H2 & _).
    cbn [run fold_left List.last]. eauto.
  - destruct (call_replaces_pending s c Hone Hdue) as (H1 & H2 & H3).
    destruct Hb as [Hgap Hb].
    change (run wait (c :: c' :: calls) s)
      with (run wait (c' :: calls) (call wait s c)).
    destruct (IH c' (call wait s c)) as (H4 & H5).
    + right. eexists. split; [exact H2|exact H3].
    + intros x Hx. rewrite H2 in Hx. destruct Hx as [<-|[]].
      cbn [due]. lia.
    + exact Hb.
    + cbv zeta in H4, H5. split; [congruence|].
      rewrite last_cons. exact H5.
Qed.

End DebounceFacts.



(** * Further properties of the code *)

(** ** The local store, continued *)

Lemma arr_findIndex_None_find p all :
  arr_findIndex p all = Ok None ->
  arr_find p all = Ok VUndefined /\ Forall (fun n => p n = Ok false) all.
Proof.
  induction all as [|x all IH]; simpl; [intros _; split; [reflexivity|constructor]|].
  destruct (p x) as [[]|] eqn:E; simpl; try discriminate.
  destruct (arr_findIndex p all) as [[i|]|]; simpl; try discriminate.
  intros _. destruct (IH eq_refl) as [H1 H2]. split; [exact H1|].
  constructor; assumption.
Qed.

Lemma id_is_note_id id n :
  n <> VNull -> n <> VUndefined ->
  id_is id n = Ok (strict_eq (note_id n) id) /\
  id_is_not id n = Ok (other_id id n).
Proof.
  intros H1 H2. unfold id_is, id_is_not, other_id, note_id.
  destruct (get_Ok n k_id H1 H2) as [x ->]. split; reflexivity.
Qed.

Lemma arr_filter_objects id all :
  Forall is_object all ->
  arr_filter (id_is_not id) all = Ok (List.filter (other_id id) all).
Proof.
  induction 1 as [|n all [ps ->] _ IH]; [reflexivity|].
  cbn [arr_filter List.filter].
  destruct (id_is_note_id id (VObj ps)) as [_ ->]; try discriminate.
  cbn [bind]. rewrite IH. reflexivity.
Qed.

Lemma filter_objects (f : value -> bool) all :
  Forall is_object all -> Forall is_object (List.filter f all).
Proof.
  induction 1 as [|n all Hn _ IH]; simpl; [constructor|].
  destruct (f n); [constructor|]; assumption.
Qed.

Lemma filter_stable (f : value -> bool) all :
  Forall (fun n => jsonify n = n) all ->
  Forall (fun n => jsonify n = n) (List.filter f all).
Proof.
  induction 1 as [|n all Hn _ IH]; simpl; [constructor|].
  destruct (f n); [constructor|]; assumption.
Qed.

Section LocalDelete.

Variable API_BASE : jstr.
Variable fetch : Request -> result Response.
Variable Date_parse : value -> option Z.
Hypothesis local_mode : isBackendConfigured API_BASE = false.

Lemma deleteNote_local (id : value) (st st' : Storage) (all : list value) :
  lsReadAll st = (Ok (VArr all), st') ->
  Forall is_object all ->
  let next := List.filter (other_id id) all in
  deleteNote API_BASE fetch id st =
  (Ok (VBool true), snd (lsWriteAll next st')) /\
  lsReadAll (snd (lsWriteAll next st')) =
  (Ok (VArr next), snd (lsWriteAll next st')).
Proof.
  intros Hread Hall. cbv zeta. split.
  - unfold deleteNote. rewrite local_mode. unfold mbindM, lift, ret.
    rewrite Hread. cbn [as_array]. rewrite arr_filter_objects by assumption.
    reflexivity.
  - rewrite lsReadAll_written. rewrite map_id_Forall; [reflexivity|].
    apply filter_stable, stable_elements.
    eapply lsReadAll_stable, Hread.
Qed.

End LocalDelete.

(** ** debounce over any sequence of calls *)

Section DebounceSequences.

Import Debounce.

Variable A : Type.
Variable wait : option Z.

Let w : Z := Z.max 0 (wait_of wait).

Lemma advance_at_most_one (T : Z) (s : State A) :
  at_most_one s -> at_most_one (advance T s).
Proof.
  intros [H|(x & H & Ht)]; unfold advance; rewrite H; cbn [fire].
  - left. reflexivity.
  - destruct (due x <=? T); cbn [fire]; [left; reflexivity|].
    right. exists x. split; [reflexivity|exact Ht].
Qed.

Lemma debounce_at_most_one (now : Z) (a : A) (s : State A) :
  at_most_one s -> at_most_one (debounce wait now a s).
Proof.
  intros Hone. right. unfold debounce, setTimeout.
  cbn [t next_id pending invoked].
  exists {| timer_id := next_id s; due := now + Z.max 0 (wait_of wait);
            args := a |}.
  split; [|reflexivity].
  destruct Hone as [->|(x & -> & ->)].
  - destruct (t s); reflexivity.
  - cbn [clearTimeout List.filter]. rewrite Nat.eqb_refl. reflexivity.
Qed.

Lemma run_at_most_one (calls : list (Z * A)) : forall s : State A,
  at_most_one s -> at_most_one (run wait calls s).
Proof.
  induction calls as [|c calls IH]; intros s Hone; [exact Hone|].
  change (run wait (c :: calls) s) with (run wait calls (call wait s c)).
  apply IH. unfold call. apply debounce_at_most_one, advance_at_most_one.
  exact Hone.
Qed.

Lemma call_armed (s : State A) (c : Z * A) :
  at_most_one s ->
  armed w c (call wait s c) /\
  invoked (call wait s c) = invoked (advance (fst c) s).
Proof.
  intros Hone. apply (advance_at_most_one (fst c)) in Hone.
  unfold call, debounce, setTimeout. cbn [t next_id pending invoked].
  split; [|reflexivity]. exists (next_id (advance (fst c) s)).
  cbn [t next_id pending invoked]. split; [|reflexivity].
  destruct Hone as [->|(x & -> & ->)].
  - destruct (t (advance (fst c) s)); reflexivity.
  - cbn [clearTimeout List.filter]. rewrite Nat.eqb_refl. reflexivity.
Qed.

Lemma advance_armed (T : Z) (c : Z * A) (s : State A) :
  armed w c s ->
  invoked (advance T s) =
  invoked s ++ (if fst c + w <=? T then [(fst c + w, snd c)] else []).
Proof.
  intros (i & Hp & _). unfold advance. rewrite Hp. cbn [fire due args].
  destruct (fst c + w <=? T); cbn [fire invoked]; [reflexivity|].
  rewrite app_nil_r. reflexivity.
Qed.

Lemma armed_at_most_one (c : Z * A) (s : State A) :
  armed w c s -> at_most_one s.
Proof. intros (i & Hp & Ht). right. eexists. split; [exact Hp|exact Ht]. Qed.

Lemma run_armed (calls : list (Z * A)) : forall (c : Z * A) (s : State A) T,
  armed w c s ->
  invoked (advance T (run wait calls s)) =
  invoked s ++ fired w T (c :: calls).
Proof.
  induction calls as [|c' calls IH]; intros c s T Harm.
  - cbn [run fold_left fired]. rewrite app_nil_r.
    apply advance_armed. exact Harm.
  - change (run wait (c' :: calls) s)
      with (run wait calls (call wait s c')).
    destruct (call_armed s c' (armed_at_most_one c s Harm)) as [Harm' Hinv].
    rewrite (IH c' (call wait s c') T Harm').
    rewrite Hinv, (advance_armed (fst c') c s Harm).
    change (fired w T (c :: c' :: calls))
      with ((if fst c + w <=? fst c' then [(fst c + w, snd c)] else []) ++
            fired w T (c' :: calls)).
    rewrite app_assoc. reflexivity.
Qed.

End DebounceSequences.

(** X1: whatever the calls and whenever they come, at most one timer of
    a debounced function is pending, after every call and at every later
    time: a new call always cancels the timer of the call before. *)
Theorem debounce_keeps_one_timer (A : Type) (wait : option Z)
        (calls : list (Z * A)) (T : Z) :
  Debounce.at_most_one (Debounce.run wait calls (Debounce.init A)) /\
  Debounce.at_most_one
    (Debounce.advance T (Debounce.run wait calls (Debounce.init A))) /\
  (length (Debounce.pending
             (Debounce.advance T (Debounce.run wait calls (Debounce.init A))))
   <= 1)%nat.
Proof.
  assert (Debounce.at_most_one (Debounce.run wait calls (Debounce.init A)))
    as H by (apply run_at_most_one; left; reflexivity).
  split; [exact H|].
  apply (advance_at_most_one A T) in H. split; [exact H|].
  destruct H as [->|(x & -> & _)]; cbn [length]; lia.
Qed.


Lemma arr_find_none p all :
  Forall (fun n => p n = Ok false) all -> arr_find p all = Ok VUndefined.
Proof.
  induction 1 as [|n all Hn _ IH]; [reflexivity|].
  cbn [arr_find]. rewrite Hn. exact IH.
Qed.

Lemma arr_find_insert p y all : forall idx,
  arr_findIndex p all = Ok (Some idx) ->
  p y = Ok true ->
  arr_find p (<[idx := y]> all) = Ok y.
Proof.
  induction all as [|n all IH]; intros idx; [discriminate|].
  cbn [arr_findIndex]. destruct (p n) as [[]|] eqn:E; cbn [bind].
  - intros [= <-] Hy. cbn. rewrite Hy. reflexivity.
  - destruct (arr_findIndex p all) as [[i|]|]; cbn; try discriminate.
    intros [= <-] Hy. cbn. rewrite E. cbn. apply IH; [reflexivity|exact Hy].
  - discriminate.
Qed.

Lemma filter_all_true {A} (f : A -> bool) l :
  Forall (fun x => f x = true) l -> List.filter f l = l.
Proof.
  induction 1 as [|x l Hx _ IH]; [reflexivity|].
  cbn. rewrite Hx, IH. reflexivity.
Qed.

Section LocalFailures.

Variable API_BASE : jstr.
Variable fetch : Request -> result Response.
Variable Date_parse : value -> option Z.
Hypothesis local_mode : isBackendConfigured API_BASE = false.

Lemma lsReadAll_Ok (st : Storage) :
  exists v, lsReadAll st = (Ok v, snd (lsReadAll st)).
Proof.
  destruct (lsReadAll_spec st) as (v & st' & H & _). rewrite H. eauto.
Qed.

Lemma fetchNote_storage (now : Z) (id : value) (st : Storage) :
  snd (fetchNote API_BASE fetch Date_parse now id st) = snd (lsReadAll st).
Proof.
  unfold fetchNote. rewrite local_mode. unfold mbindM, lift, ret.
  destruct (lsReadAll st) as [[v|e] st']; [|reflexivity].
  destruct (as_array v) as [all|e]; [|reflexivity]. cbn [snd].
  destruct (arr_find (id_is id) all); reflexivity.
Qed.

Lemma createNote_Throw (now : Z) (rnd : jstr) (note : value) (st : Storage)
      (e : error) :
  fst (createNote API_BASE fetch Date_parse now rnd note st) = Throw e ->
  snd (createNote API_BASE fetch Date_parse now rnd note st) =
  snd (lsReadAll st).
Proof.
  unfold createNote. rewrite local_mode. unfold mbindM, lift, ret.
  destruct (lsReadAll st) as [[v|e0] st']; [|reflexivity].
  cbn [toISOString].
  destruct (get note k_id); [|reflexivity].
  destruct (get note k_title); [|reflexivity].
  destruct (get note k_content); [|reflexivity].
  destruct (as_array v) as [all|e0]; [|reflexivity].
  unfold lsWriteAll. cbn [fst]. discriminate.
Qed.

Lemma updateNote_Throw (now : Z) (id patch : value) (st : Storage)
      (e : error) :
  fst (updateNote API_BASE fetch Date_parse now id patch st) = Throw e ->
  snd (updateNote API_BASE fetch Date_parse now id patch st) =
  snd (lsReadAll st).
Proof.
  unfold updateNote. rewrite local_mode. unfold mbindM, lift, ret, throw.
  destruct (lsReadAll st) as [[v|e0] st']; [|reflexivity].
  destruct (as_array v) as [all|e0]; [|reflexivity].
  destruct (arr_findIndex (id_is id) all) as [[idx|]|e0]; [|reflexivity..].
  unfold lsWriteAll. cbn [fst]. discriminate.
Qed.

Lemma deleteNote_Throw (id : value) (st : Storage) (e : error) :
  fst (deleteNote API_BASE fetch id st) = Throw e ->
  snd (deleteNote API_BASE fetch id st) = snd (lsReadAll st).
Proof.
  unfold deleteNote. rewrite local_mode. unfold mbindM, lift, ret.
  destruct (lsReadAll st) as [[v|e0] st']; [|reflexivity].
  destruct (as_array v) as [all|e0]; [|reflexivity].
  destruct (arr_filter (id_is_not id) all) as [next|e0]; [|reflexivity].
  unfold lsWriteAll. cbn [fst]. discriminate.
Qed.

End LocalFailures.

(** X3: in local mode an operation that throws has written nothing: the
    storage is left as the read at its start leaves it.  The two reads
    never write either. *)
Theorem local_failure_writes_nothing (API_BASE : jstr)
        (fetch : Request -> result Response)
        (Date_parse : value -> option Z) (now : Z) (rnd : jstr)
        (id arg : value) (st : Storage) :
  isBackendConfigured API_BASE = false ->
  snd (fetchNotes API_BASE fetch Date_parse now st) = snd (lsReadAll st) /\
  snd (fetchNote API_BASE fetch Date_parse now id st) = snd (lsReadAll st) /\
  (forall e,
     fst (createNote API_BASE fetch Date_parse now rnd arg st) = Throw e ->
     snd (createNote API_BASE fetch Date_parse now rnd arg st) =
     snd (lsReadAll st)) /\
  (forall e,
     fst (updateNote API_BASE fetch Date_parse now id arg st) = Throw e ->
     snd (updateNote API_BASE fetch Date_parse now id arg st) =
     snd (lsReadAll st)) /\
  (forall e,
     fst (deleteNote API_BASE fetch id st) = Throw e ->
     snd (deleteNote API_BASE fetch id st) = snd (lsReadAll st)).
Proof.
  intros Hl. split; [|split; [|split; [|split]]].
  - unfold fetchNotes. rewrite Hl. reflexivity.
  - apply fetchNote_storage, Hl.
  - intros e. apply createNote_Throw, Hl.
  - intros e. apply updateNote_Throw, Hl.
  - intros e. apply deleteNote_Throw, Hl.
Qed.

Lemma local_failure_writes_nothing_witness :
  let st : Storage :=
    {[ LS_KEY := json_text "[{'id':'a','title':'T'}]" ]} in
  isBackendConfigured [] = false /\
  fst (updateNote [] no_network no_date_parse 0 (VStr (js "b")) (VObj []) st)
  = Throw (Error msg_not_found) /\
  snd (updateNote [] no_network no_date_parse 0 (VStr (js "b")) (VObj []) st)
  = st.
Proof.
  cbv zeta.
  assert (isBackendConfigured [] = false) as Hl by reflexivity.
  assert (fst (updateNote [] no_network no_date_parse 0 (VStr (js "b"))
                 (VObj [])
                 {[ LS_KEY := json_text "[{'id':'a','title':'T'}]" ]})
          = Throw (Error msg_not_found)) as Ht by (vm_compute; reflexivity).
  destruct (local_failure_writes_nothing [] no_network no_date_parse 0
              (js "r") (VStr (js "b")) (VObj [])
              {[ LS_KEY := json_text "[{'id':'a','title':'T'}]" ]} Hl)
    as (_ & _ & _ & Hu & _).
  split; [exact Hl|]. split; [exact Ht|].
  rewrite (Hu _ Ht). vm_compute. reflexivity.
Defined.

(** X4: a store that holds JSON which is not an array (an object, a
    number, a string, null) is never repaired: the list returns that value
    as it is, and every other local operation throws a TypeError and
    leaves the storage alone. *)
Theorem non_array_store_breaks_operations (API_BASE : jstr)
        (fetch : Request -> result Response)
        (Date_parse : value -> option Z) (now : Z) (rnd : jstr)
        (id arg v : value) (st st' : Storage) :
  isBackendConfigured API_BASE = false ->
  lsReadAll st = (Ok v, st') ->
  (forall l, v <> VArr l) ->
  fetchNotes API_BASE fetch Date_parse now st = (Ok v, st') /\
  fetchNote API_BASE fetch Date_parse now id st = (Throw TypeError, st') /\
  createNote API_BASE fetch Date_parse now rnd arg st =
  (Throw TypeError, st') /\
  updateNote API_BASE fetch Date_parse now id arg st =
  (Throw TypeError, st') /\
  deleteNote API_BASE fetch id st = (Throw TypeError, st') /\
  lsReadAll st' = (Ok v, st').
Proof.
  intros Hl Hread Hv.
  assert (as_array v = Throw TypeError) as Ha.
  { destruct v as [| |b|n|s|l|ps]; try reflexivity. destruct (Hv l eq_refl). }
  unfold fetchNotes, fetchNote, createNote, updateNote, deleteNote.
  rewrite Hl. unfold mbindM, lift, ret. rewrite Hread, Ha.
  repeat apply conj; try reflexivity.
  - cbn [toISOString].
    destruct arg; cbn [get]; reflexivity.
  - eapply lsReadAll_again, Hread.
Qed.

Lemma non_array_store_breaks_operations_witness :
  let st : Storage := {[ LS_KEY := json_text "{'notes':[]}" ]} in
  let v := VObj [(js "notes", VArr [])] in
  isBackendConfigured [] = false /\
  lsReadAll st = (Ok v, st) /\
  (forall l, v <> VArr l) /\
  fetchNotes [] no_network no_date_parse 0 st = (Ok v, st) /\
  createNote [] no_network no_date_parse 0 (js "r")
    (VObj [(k_title, VStr (js "T"))]) st = (Throw TypeError, st) /\
  deleteNote [] no_network (VStr (js "a")) st = (Throw TypeError, st).
Proof.
  cbv zeta.
  assert (isBackendConfigured [] = false) as Hl by reflexivity.
  assert (lsReadAll ({[ LS_KEY := json_text "{'notes':[]}" ]} : Storage) =
          (Ok (VObj [(js "notes", VArr [])]),
           {[ LS_KEY := json_text "{'notes':[]}" ]})) as Hr
    by (vm_compute; reflexivity).
  assert (forall l, VObj [(js "notes", VArr [])] <> VArr l) as Hv
    by discriminate.
  destruct (non_array_store_breaks_operations [] no_network no_date_parse 0
              (js "r") (VStr (js "a")) (VObj [(k_title, VStr (js "T"))])
              _ _ _ Hl Hr Hv) as (H1 & _ & H3 & _ & H5 & _).
  repeat apply conj; assumption.
Defined.

(** X5: in local mode [fetchNote] returns [null], and does not throw,
    when no entry of the collection has the id. *)
Theorem getOne_unknown_id_is_null (API_BASE : jstr)
        (fetch : Request -> result Response)
        (Date_parse : value -> option Z) (now : Z) (id : value)
        (st st' : Storage) (all : list value) :
  isBackendConfigured API_BASE = false ->
  lsReadAll st = (Ok (VArr all), st') ->
  Forall (fun n => id_is id n = Ok false) all ->
  fetchNote API_BASE fetch Date_parse now id st = (Ok VNull, st').
Proof.
  intros Hl Hread Hno.
  rewrite (fetchNote_local API_BASE fetch Date_parse Hl now id st _ st' all
             Hread eq_refl).
  rewrite arr_find_none by exact Hno. reflexivity.
Qed.

Lemma getOne_unknown_id_is_null_witness :
  let st : Storage :=
    {[ LS_KEY := json_text "[{'id':'a','title':'T'},{'id':'b'}]" ]} in
  isBackendConfigured [] = false /\
  fetchNote [] no_network no_date_parse 0 (VStr (js "c")) st = (Ok VNull, st).
Proof.
  cbv zeta. split; [reflexivity|].
  eapply (getOne_unknown_id_is_null [] no_network no_date_parse 0
            (VStr (js "c"))).
  - reflexivity.
  - vm_compute. reflexivity.
  - repeat constructor.
Defined.

(** X6: what [lsReadAll] reads after [lsWriteAll] is the JSON image of
    the list written: the list itself when its entries are values that
    JSON keeps (no [undefined], no NaN, no infinity, no duplicate key);
    the read changes nothing, and an earlier content of the item plays no
    part. *)
Theorem write_then_read (notes : list value) (st : Storage) :
  let st1 := snd (lsWriteAll notes st) in
  lsReadAll st1 = (Ok (VArr (List.map jsonify notes)), st1) /\
  (Forall (fun n => jsonify n = n) notes ->
   lsReadAll st1 = (Ok (VArr notes), st1)) /\
  (forall notes0, snd (lsWriteAll notes (snd (lsWriteAll notes0 st))) = st1).
Proof.
  cbv zeta. split; [apply lsReadAll_written|]. split.
  - intros H. rewrite lsReadAll_written, map_id_Forall by exact H.
    reflexivity.
  - intros notes0. apply lsWriteAll_twice.
Qed.

Lemma write_then_read_witness :
  let notes := [VObj [(k_id, VStr (js "a")); (k_title, VUndefined)];
                VObj [(k_id, VNum (Dec 15 0))]] in
  let st1 := snd (lsWriteAll notes (∅ : Storage)) in
  st1 !! LS_KEY = Some (json_text "[{'id':'a'},{'id':15}]") /\
  lsReadAll st1 =
  (Ok (VArr [VObj [(k_id, VStr (js "a"))];
             VObj [(k_id, VNum (Dec 15 0))]]), st1).
Proof.
  cbv zeta. split; [vm_compute; reflexivity|].
  destruct (write_then_read
              [VObj [(k_id, VStr (js "a")); (k_title, VUndefined)];
               VObj [(k_id, VNum (Dec 15 0))]] ∅) as [H _].
  exact H.
Defined.



(** X8: in local mode a store that reads as an array of objects still
    does after any operation, whatever its arguments and whether it
    returns or throws. *)
Theorem operations_keep_an_array_of_objects (API_BASE : jstr)
        (fetch : Request -> result Response)
        (Date_parse : value -> option Z) (now : Z) (rnd : jstr)
        (id arg : value) (st : Storage) :
  isBackendConfigured API_BASE = false ->
  notes_store st ->
  notes_store (snd (fetchNotes API_BASE fetch Date_parse now st)) /\
  notes_store (snd (fetchNote API_BASE fetch Date_parse now id st)) /\
  notes_store (snd (createNote API_BASE fetch Date_parse now rnd arg st)) /\
  notes_store (snd (updateNote API_BASE fetch Date_parse now id arg st)) /\
  notes_store (snd (deleteNote API_BASE fetch id st)).
Proof.
  intros Hl Hs.
  assert (notes_store (snd (lsReadAll st))) as Hr.
  { destruct (lsReadAll_spec st) as (v & st' & H & _).
    rewrite H. eapply notes_store_read; [exact Hs|exact H]. }
  repeat apply conj.
  - unfold fetchNotes. rewrite Hl. exact Hr.
  - rewrite fetchNote_storage by exact Hl. exact Hr.
  - eapply notes_store_createNote; eassumption.
  - eapply notes_store_updateNote; eassumption.
  - eapply notes_store_deleteNote; eassumption.
Qed.

Lemma operations_keep_an_array_of_objects_witness :
  let st : Storage := {[ LS_KEY := json_text "[{'id':'a','title':'T'}]" ]} in
  notes_store st /\
  notes_store
    (snd (updateNote [] no_network no_date_parse 0 (VStr (js "a"))
            (VStr (js "xy")) st)) /\
  notes_store
    (snd (createNote [] no_network no_date_parse 0 (js "r")
            (VNum (Dec 5 0)) st)).
Proof.
  cbv zeta.
  assert (notes_store
            ({[ LS_KEY := json_text "[{'id':'a','title':'T'}]" ]} : Storage))
    as Hs.
  { eexists. eexists. split; [vm_compute; reflexivity|].
    repeat constructor. eexists. reflexivity. }
  split; [exact Hs|].
  split.
  - apply (operations_keep_an_array_of_objects [] no_network no_date_parse 0
             (js "r") (VStr (js "a")) (VStr (js "xy")) _
             ltac:(reflexivity) Hs).
  - apply (operations_keep_an_array_of_objects [] no_network no_date_parse 0
             (js "r") (VStr (js "a")) (VNum (Dec 5 0)) _
             ltac:(reflexivity) Hs).
Defined.

Lemma note_id_new_note now rnd id title content s :
  or_else id (VStr (js "n_" ++ rnd)) = VStr s ->
  note_id (jsonify (new_note now rnd id title content)) = VStr s.
Proof.
  intros H. rewrite jsonify_new_note, H. reflexivity.
Qed.



Lemma id_is_stable_object ops id :
  jsonify (VObj ops) = VObj ops ->
  forall pps iso,
    lookup_prop (own_props pps) k_id = None ->
    id_is id (VObj ops) = Ok true ->
    id_is id (jsonify (VObj (set_prop (spread (spread [] (VObj ops)) pps)
                               k_updatedAt iso))) = Ok true.
Proof.
  intros Hst pps iso Hp. unfold id_is.
  rewrite get_jsonify_object by apply merged_NoDup.
  rewrite merged_lookup, Hp. cbn [get own_props bind].
  change (jstr_eqb k_updatedAt k_id) with false. cbv iota.
  destruct (lookup_prop ops k_id) as [v|] eqn:E; [|tauto].
  destruct (stable_object_lookup ops k_id v Hst E) as [Hv Hu].
  rewrite Hv. destruct v; tauto.
Qed.



(** ** Remote mode and [normalize], continued *)

Lemma normalize_result Date_parse now note n :
  normalize Date_parse now note = Ok n ->
  time_valid now = true ->
  exists id title content t,
    n = VObj [(k_id, id); (k_title, or_else title (VStr []));
              (k_content, or_else content (VStr []));
              (k_updatedAt, VStr (iso_of_time t))] /\
    time_valid t = true.
Proof.
  unfold normalize. intros H Hnow.
  destruct (get note k_id) as [id|]; [|discriminate].
  destruct (get note k_title) as [title|]; [|discriminate].
  destruct (get note k_content) as [content|]; [|discriminate].
  destruct (get note k_updatedAt) as [u|]; [|discriminate].
  cbn [bind] in H. exists id, title, content.
  destruct (truthy u).
  - destruct (Date_of Date_parse u) as [t|] eqn:E; [|discriminate].
    cbn [toISOString bind] in H. injection H as <-. exists t.
    split; [reflexivity|]. eapply Date_of_valid, E.
  - cbn [toISOString bind] in H. injection H as <-. exists now.
    split; [reflexivity|exact Hnow].
Qed.

Lemma or_else_empty_or_truthy v :
  or_else v (VStr []) = VStr [] \/ truthy (or_else v (VStr [])) = true.
Proof.
  unfold or_else. destruct (truthy v) eqn:E; [right; exact E|left; reflexivity].
Qed.

Lemma normalize_is_canonical Date_parse now note n :
  normalize Date_parse now note = Ok n ->
  time_valid now = true ->
  canonical n.
Proof.
  intros H Hnow.
  destruct (normalize_result _ _ _ _ H Hnow)
    as (id & title & content & t & -> & Ht).
  exists id, (or_else title (VStr [])), (or_else content (VStr [])),
    (iso_of_time t).
  split; [reflexivity|]. split; [apply or_else_empty_or_truthy|].
  split; [apply or_else_empty_or_truthy|]. apply iso_of_time_format, Ht.
Qed.

Lemma arr_map_Forall (P : value -> Prop) f :
  (forall x y, f x = Ok y -> P y) ->
  forall l l', arr_map f l = Ok l' -> Forall P l'.
Proof.
  intros Hf. induction l as [|x l IH]; intros l'; cbn [arr_map].
  - intros [= <-]. constructor.
  - destruct (f x) as [y|] eqn:E; [|discriminate]. cbn [bind].
    destruct (arr_map f l) as [r|]; [|discriminate]. cbn [bind].
    intros [= <-]. constructor; [eapply Hf, E|apply IH; reflexivity].
Qed.

Lemma arr_map_Throw f n e :
  f n = Throw e ->
  forall l, In n l -> exists e', arr_map f l = Throw e'.
Proof.
  intros Hn. induction l as [|x l IH]; intros Hin; [destruct Hin|].
  cbn [arr_map]. destruct Hin as [->|Hin].
  - rewrite Hn. eexists. reflexivity.
  - destruct (f x); [|eexists; reflexivity]. cbn [bind].
    destruct (IH Hin) as [e' ->]. eexists. reflexivity.
Qed.

Lemma iso_of_time_truthy t :
  time_valid t = true -> truthy (VStr (iso_of_time t)) = true.
Proof.
  intros Ht. apply iso_of_time_format in Ht.
  destruct (iso_of_time t); [discriminate Ht|reflexivity].
Qed.

Lemma or_else_twice v :
  or_else (or_else v (VStr [])) (VStr []) = or_else v (VStr []).
Proof.
  unfold or_else. destruct (truthy v) eqn:E; [rewrite E|]; reflexivity.
Qed.

Section RemoteAnswers.

Variable API_BASE : jstr.
Variable fetch : Request -> result Response.
Variable Date_parse : value -> option Z.
Hypothesis remote_mode : isBackendConfigured API_BASE = true.

(** What the three operations that return one note do with the answer
    to their request. *)
Lemma remote_note (now : Z) (action : jstr) (item : option value)
      (r : result Response) (v : value) :
  (do r <- r;
   do r <- checked action item r;
   do data <- res_json r;
   normalize Date_parse now data) = Ok v ->
  time_valid now = true -> canonical v.
Proof.
  intros H Hnow. destruct r as [r|]; [|discriminate]. cbn [bind] in H.
  destruct (checked action item r) as [r'|]; [|discriminate].
  cbn [bind] in H. destruct (res_json r') as [data|]; [|discriminate].
  eapply normalize_is_canonical; [exact H|exact Hnow].
Qed.

End RemoteAnswers.



(** X12: with a backend configured the list fails as a whole, and returns
    no note at all, as soon as one note of the answer has an [updatedAt]
    that is truthy and not a date: [toISOString] throws on it. *)
Theorem remote_list_fails_on_one_bad_date (API_BASE : jstr)
        (fetch : Request -> result Response)
        (Date_parse : value -> option Z) (now : Z) (st : Storage)
        (r : Response) (l : list value) (n u : value) :
  isBackendConfigured API_BASE = true ->
  fetch (request API_BASE GET None None) = Ok r ->
  res_ok r = true ->
  res_json r = Ok (VArr l) ->
  In n l ->
  get n k_updatedAt = Ok u ->
  truthy u = true ->
  Date_of Date_parse u = None ->
  exists e, fetchNotes API_BASE fetch Date_parse now st = (Throw e, st).
Proof.
  intros Hr Hf Hok Hj Hin Hu Ht Hd.
  unfold fetchNotes. rewrite Hr. unfold lift. rewrite Hf. cbn [bind].
  unfold checked. rewrite Hok. cbn [bind]. rewrite Hj. cbn [bind].
  destruct (arr_map_Throw (normalize Date_parse now) n RangeError
              (invalid_date_throws Date_parse now n u Hu Ht Hd) l Hin)
    as [e ->].
  exists e. reflexivity.
Qed.

Lemma remote_list_fails_on_one_bad_date_witness :
  let good := VObj [(k_id, VNum (Dec 1 0)); (k_title, VStr (js "T"))] in
  let bad := VObj [(k_id, VNum (Dec 2 0));
                   (k_updatedAt, VStr (js "yesterday"))] in
  isBackendConfigured (js "http://h") = true /\
  exists e,
    fetchNotes (js "http://h") (answers (VArr [good; bad])) iso_date_parse 0
      (∅ : Storage) = (Throw e, ∅).
Proof.
  cbv zeta. split; [reflexivity|].
  eapply (remote_list_fails_on_one_bad_date (js "http://h")
            (answers (VArr [VObj [(k_id, VNum (Dec 1 0));
                                  (k_title, VStr (js "T"))];
                            VObj [(k_id, VNum (Dec 2 0));
                                  (k_updatedAt, VStr (js "yesterday"))]]))
            iso_date_parse 0 ∅ _ _
            (VObj [(k_id, VNum (Dec 2 0));
                   (k_updatedAt, VStr (js "yesterday"))])
            (VStr (js "yesterday"))).
  - reflexivity.
  - reflexivity.
  - reflexivity.
  - reflexivity.
  - right. left. reflexivity.
  - reflexivity.
  - reflexivity.
  - vm_compute. reflexivity.
Defined.

(** X13: [normalize] changes nothing in a note it has returned, whatever
    the clock at the second call, on an engine whose [Date.parse] reads
    back what [toISOString] writes. *)
Theorem normalize_idempotent (Date_parse : value -> option Z) (now now' : Z)
        (note n : value) :
  (forall t, time_valid t = true ->
             Date_parse (VStr (iso_of_time t)) = Some t) ->
  time_valid now = true ->
  normalize Date_parse now note = Ok n ->
  normalize Date_parse now' n = Ok n.
Proof.
  intros Hdp Hnow H.
  destruct (normalize_result _ _ _ _ H Hnow)
    as (id & title & content & t & -> & Ht).
  unfold normalize. cbn [get lookup_prop].
  change (jstr_eqb k_updatedAt k_id) with false.
  change (jstr_eqb k_content k_id) with false.
  change (jstr_eqb k_title k_id) with false.
  change (jstr_eqb k_updatedAt k_title) with false.
  change (jstr_eqb k_content k_title) with false.
  change (jstr_eqb k_updatedAt k_content) with false.
  rewrite !jstr_eqb_refl. cbn [bind].
  rewrite (iso_of_time_truthy t Ht). cbn [Date_of].
  rewrite (Hdp t Ht). unfold time_clip. rewrite Ht. cbn [toISOString bind].
  rewrite !or_else_twice. reflexivity.
Qed.

Lemma iso_date_parse_reads_iso t :
  time_valid t = true -> iso_date_parse (VStr (iso_of_time t)) = Some t.
Proof. apply iso_time_of_time. Qed.

Lemma normalize_idempotent_witness :
  let note := VObj [(k_title, VNum (Dec 5 0)); (k_id, VStr (js "a"))] in
  let n := VObj [(k_id, VStr (js "a")); (k_title, VNum (Dec 5 0));
                 (k_content, VStr []);
                 (k_updatedAt, VStr (js "1970-01-01T00:00:01.000Z"))] in
  normalize iso_date_parse 1000 note = Ok n /\
  normalize iso_date_parse 99000 n = Ok n.
Proof.
  cbv zeta.
  assert (normalize iso_date_parse 1000
            (VObj [(k_title, VNum (Dec 5 0)); (k_id, VStr (js "a"))]) =
          Ok (VObj [(k_id, VStr (js "a")); (k_title, VNum (Dec 5 0));
                    (k_content, VStr []);
                    (k_updatedAt, VStr (js "1970-01-01T00:00:01.000Z"))]))
    as H by (vm_compute; reflexivity).
  split; [exact H|].
  exact (normalize_idempotent iso_date_parse 1000 99000 _ _
           iso_date_parse_reads_iso ltac:(reflexivity) H).
Defined.

Lemma drop_slashes_spec s :
  exists k, s = repeat 47%N k ++ drop_slashes s /\
            forall p, drop_slashes s <> 47%N :: p.
Proof.
  induction s as [|c s (k & Hk & Hn)].
  - exists 0%nat. split; [reflexivity|discriminate].
  - cbn [drop_slashes]. destruct (N.eqb_spec c 47) as [->|Hc].
    + exists (S k). split; [cbn [repeat app]; f_equal; exact Hk|exact Hn].
    + exists 0%nat. split; [reflexivity|]. intros p [= E _]. contradiction.
Qed.

Lemma rev_repeat_same {A} (x : A) k : rev (repeat x k) = repeat x k.
Proof.
  induction k as [|k IH]; [reflexivity|].
  cbn [repeat rev]. rewrite IH. clear IH.
  induction k as [|k IH]; [reflexivity|].
  cbn [repeat app]. f_equal. exact IH.
Qed.

(** X14: the base address of every request is [API_BASE] without its
    trailing slashes: only slashes at the end are removed, and what is
    left does not end in a slash. *)
Theorem request_base_has_no_trailing_slash (API_BASE : jstr) (m : Method)
        (item : option value) (body : option (option jstr)) :
  let b := req_base (request API_BASE m item body) in
  (exists k, API_BASE = b ++ repeat 47%N k) /\
  (forall p, b <> p ++ [47%N]) /\
  strip_trailing_slashes b = b.
Proof.
  cbv zeta. cbn [request req_base]. unfold strip_trailing_slashes.
  destruct (drop_slashes_spec (rev API_BASE)) as (k & Hk & Hn).
  assert (forall p, rev (drop_slashes (rev API_BASE)) <> p ++ [47%N]) as Hp.
  { intros p E. apply (f_equal (@rev N)) in E.
    rewrite rev_involutive, rev_app_distr in E. exact (Hn _ E). }
  split; [|split].
  - exists k. rewrite <- (rev_involutive API_BASE) at 1.
    rewrite Hk at 1. rewrite rev_app_distr, rev_repeat_same. reflexivity.
  - exact Hp.
  - rewrite rev_involutive.
    destruct (drop_slashes (rev API_BASE)) as [|c q] eqn:E; [reflexivity|].
    cbn [drop_slashes]. destruct (N.eqb_spec c 47) as [->|Hc];
      [destruct (Hn q eq_refl)|reflexivity].
Qed.

(** ** Configuration *)

Lemma trim_start_nil s :
  trim_start s = [] <-> Forall (fun c => is_js_space c = true) s.
Proof.
  induction s as [|c s IH]; cbn [trim_start].
  - split; [constructor|reflexivity].
  - destruct (is_js_space c) eqn:E.
    + rewrite IH. split; [intros H; constructor; assumption|].
      intros H. inversion H. assumption.
    + split; [discriminate|]. intros H. inversion H. congruence.
Qed.

Lemma trim_start_head s c r :
  trim_start s = c :: r -> is_js_space c = false.
Proof.
  induction s as [|x s IH]; cbn [trim_start]; [discriminate|].
  destruct (is_js_space x) eqn:E; [exact IH|]. intros [= -> _]. exact E.
Qed.

Lemma trim_nil s :
  trim s = [] <-> Forall (fun c => is_js_space c = true) s.
Proof.
  unfold trim. rewrite <- trim_start_nil. split.
  - intros H. apply (f_equal (@rev N)) in H. rewrite rev_involutive in H.
    cbn [rev] in H. apply trim_start_nil in H.
    destruct (trim_start s) as [|c r] eqn:E; [reflexivity|].
    apply trim_start_head in E. apply Forall_rev in H.
    rewrite rev_involutive in H. inversion H. congruence.
  - intros ->. reflexivity.
Qed.

Lemma spaces_or_not s :
  Forall (fun c => is_js_space c = true) s \/
  exists c, In c s /\ is_js_space c = false.
Proof.
  induction s as [|x s [IH|(c & Hin & Hc)]].
  - left. constructor.
  - destruct (is_js_space x) eqn:E.
    + left. constructor; assumption.
    + right. exists x. split; [left; reflexivity|exact E].
  - right. exists c. split; [right; exact Hin|exact Hc].
Qed.

(** X15: the application talks to a backend exactly when the environment
    value that [||] selects holds a unit that is not white space.  So a
    first variable that is set to white space only hides the second, and
    the application stays in local mode even though a backend address is
    given there. *)
Theorem backend_configured_iff (primary secondary : option jstr) :
  (isBackendConfigured (API_BASE_of primary secondary) = true <->
   exists c, In c (env_choice primary secondary) /\ is_js_space c = false) /\
  (forall c p,
     Forall (fun x => is_js_space x = true) (c :: p) ->
     primary = Some (c :: p) ->
     isBackendConfigured (API_BASE_of primary secondary) = false) /\
  (primary = None \/ primary = Some [] ->
   API_BASE_of primary secondary = API_BASE_of secondary None).
Proof.
  assert (forall s, isBackendConfigured (trim s) = true <->
                    exists c, In c s /\ is_js_space c = false) as H.
  { intros s. unfold isBackendConfigured.
    destruct (trim s) as [|x r] eqn:E; cbn [is_empty negb].
    - apply trim_nil in E. split; [discriminate|].
      intros (c & Hin & Hc). rewrite List.Forall_forall in E.
      rewrite (E c Hin) in Hc. discriminate.
    - split; [intros _|reflexivity].
      destruct (spaces_or_not s) as [Hall|Hex]; [|exact Hex].
      apply trim_nil in Hall. congruence. }
  split; [apply H|]. split.
  - intros c p Hsp ->. unfold API_BASE_of. cbn [env_choice].
    apply trim_nil in Hsp. rewrite Hsp. reflexivity.
  - intros [->| ->]; unfold API_BASE_of; cbn [env_choice];
      destruct secondary as [[|c s]|]; reflexivity.
Qed.

Lemma backend_configured_iff_witness :
  isBackendConfigured
    (API_BASE_of (Some (js "  ")) (Some (js "http://h/api"))) = false /\
  API_BASE_of (Some []) (Some (js " http://h/api ")) = js "http://h/api" /\
  isBackendConfigured (API_BASE_of None (Some (js " http://h/api "))) = true.
Proof.
  destruct (backend_configured_iff (Some (js "  ")) (Some (js "http://h/api")))
    as (_ & H & _).
  split; [|split; reflexivity].
  apply (H 32%N [32%N]); [repeat constructor|reflexivity].
Defined.

(** ** The list in memory and the list in the store *)

Lemma assoc_ext (a : list (jstr * value)) : forall b,
  List.map fst a = List.map fst b ->
  List.NoDup (List.map fst a) ->
  (forall k, lookup_prop a k = lookup_prop b k) ->
  a = b.
Proof.
  induction a as [|[k v] a IH]; intros [|[k' v'] b]; cbn [List.map fst];
    try discriminate; [reflexivity|].
  intros [= <- Hk] Hnd Hl. inversion Hnd as [|? ? Hnin Hnd']. subst.
  assert (lookup_prop a k = None) as Ha by (apply lookup_prop_None, Hnin).
  assert (lookup_prop b k = None) as Hb
    by (apply lookup_prop_None; rewrite <- Hk; exact Hnin).
  pose proof (Hl k) as Hv. cbn [lookup_prop] in Hv.
  rewrite Ha, Hb, jstr_eqb_refl in Hv. injection Hv as <-.
  f_equal. apply IH; [exact Hk|exact Hnd'|].
  intros k0. specialize (Hl k0). cbn [lookup_prop] in Hl.
  destruct (lookup_prop a k0) as [x|] eqn:Ea.
  - destruct (lookup_prop b k0) as [y|] eqn:Eb; [exact Hl|].
    apply lookup_prop_None in Eb. rewrite <- Hk in Eb.
    apply lookup_prop_None in Eb. congruence.
  - destruct (lookup_prop b k0) as [y|] eqn:Eb; [|reflexivity].
    apply lookup_prop_None in Ea. rewrite Hk in Ea.
    apply lookup_prop_None in Ea. congruence.
Qed.

Lemma set_props_known qs : forall ps,
  (forall k, In k (List.map fst qs) -> In k (List.map fst ps)) ->
  List.map fst (set_props ps qs) = List.map fst ps.
Proof.
  induction qs as [|[k v] qs IH]; intros ps H; [reflexivity|].
  change (set_props ps ((k, v) :: qs)) with (set_props (set_prop ps k v) qs).
  assert (List.map fst (set_prop ps k v) = List.map fst ps) as E.
  { rewrite set_prop_keys.
    destruct (has_prop ps k) eqn:Eh; [reflexivity|].
    assert (has_prop ps k = true) as Eh'
      by (apply has_prop_In, H; left; reflexivity).
    congruence. }
  rewrite IH, E; [reflexivity|].
  intros k0 Hk0. rewrite E. apply H. right. exact Hk0.
Qed.

(** An object built on [ps]: its keys are distinct and begin with those
    of [ps]. *)
Lemma set_props_absorb (ps u : list (jstr * value)) (r : list jstr) :
  List.NoDup (List.map fst u) ->
  List.map fst u = List.map fst ps ++ r ->
  set_props ps u = u.
Proof.
  intros Hnd Hk.
  set (n := length ps).
  assert (u = firstn n u ++ skipn n u) as Hu
    by (symmetry; apply firstn_skipn).
  assert (List.map fst (firstn n u) = List.map fst ps) as H1.
  { rewrite <- firstn_map, Hk. unfold n.
    rewrite <- (length_map fst ps), firstn_app, Nat.sub_diag, firstn_all.
    cbn [firstn]. apply app_nil_r. }
  rewrite Hu at 1. unfold set_props. rewrite fold_left_app.
  fold (set_props ps (firstn n u)).
  fold (set_props (set_props ps (firstn n u)) (skipn n u)).
  assert (set_props ps (firstn n u) = firstn n u) as H2.
  { assert (List.map fst (set_props ps (firstn n u)) =
            List.map fst (firstn n u)) as Hkeys.
    { rewrite set_props_known; [symmetry; exact H1|].
      intros k. rewrite H1. tauto. }
    apply assoc_ext; [exact Hkeys| |].
    - rewrite Hkeys. rewrite Hu, List.map_app in Hnd.
      apply List.NoDup_app_remove_r in Hnd. exact Hnd.
    - intros k. rewrite lookup_set_props.
      destruct (lookup_prop (firstn n u) k) eqn:E; [reflexivity|].
      apply lookup_prop_None. rewrite <- H1. apply lookup_prop_None, E. }
  rewrite H2, set_props_fresh; [symmetry; exact Hu|].
  rewrite <- Hu. exact Hnd.
Qed.

Lemma set_prop_extends (ps u : list (jstr * value)) (r : list jstr)
      (k : jstr) (v : value) :
  List.map fst u = List.map fst ps ++ r ->
  exists r', List.map fst (set_prop u k v) = List.map fst ps ++ r'.
Proof.
  intros H. rewrite set_prop_keys. destruct (has_prop u k).
  - exists r. exact H.
  - exists (r ++ [k]). rewrite H, app_assoc. reflexivity.
Qed.

Lemma set_props_extends (ps qs : list (jstr * value)) :
  forall (u : list (jstr * value)) (r : list jstr),
  List.map fst u = List.map fst ps ++ r ->
  exists r', List.map fst (set_props u qs) = List.map fst ps ++ r'.
Proof.
  induction qs as [|[k v] qs IH]; intros u r H; [exists r; exact H|].
  change (set_props u ((k, v) :: qs)) with (set_props (set_prop u k v) qs).
  destruct (set_prop_extends ps u r k v H) as [r' H']. eapply IH, H'.
Qed.

Lemma stable_object ops :
  jsonify (VObj ops) = VObj ops ->
  List.NoDup (List.map fst ops) /\
  Forall (fun p => jsonify (snd p) = snd p) ops.
Proof.
  cbn [jsonify]. intros [= H]. split.
  - rewrite <- H. apply set_props_NoDup. constructor.
  - rewrite <- H.
    apply (set_props_values (fun v => jsonify v = v)); [constructor|].
    clear H. induction ops as [|[k x] ops IH]; [constructor|].
    cbn [json_members]. destruct x; try exact IH;
      (constructor; [apply jsonify_idem|exact IH]).
Qed.

Lemma stable_from_members u :
  List.NoDup (List.map fst u) ->
  Forall (fun p => jsonify (snd p) = snd p) u ->
  jsonify (VObj u) = VObj u.
Proof.
  intros Hnd Hv. rewrite <- (set_props_fresh u [] Hnd) at 1.
  rewrite jsonify_object by exact Hv.
  rewrite (set_props_fresh u [] Hnd). reflexivity.
Qed.

(** The note [updateNote] builds from a stored note and a patch that
    JSON keeps: JSON keeps it too, and spreading it over the stored note
    gives it back. *)
Lemma updated_is_fixed ops pps iso :
  jsonify (VObj ops) = VObj ops ->
  jsonify (VObj pps) = VObj pps ->
  let u := set_prop (spread (spread [] (VObj ops)) (VObj pps)) k_updatedAt
             (VStr iso) in
  jsonify (VObj u) = VObj u /\
  spread (spread [] (VObj ops)) (VObj u) = u.
Proof.
  intros Ho Hp. cbv zeta.
  destruct (stable_object ops Ho) as [Hnd Hv].
  destruct (stable_object pps Hp) as [_ Hpv].
  unfold spread. cbn [own_props].
  rewrite (set_props_fresh ops [] Hnd). cbn [app]. split.
  - apply stable_from_members.
    + apply set_prop_NoDup, set_props_NoDup, Hnd.
    + apply (set_prop_values (fun v => jsonify v = v)); [|reflexivity].
      apply (set_props_values (fun v => jsonify v = v)); assumption.
  - destruct (set_props_extends ops pps ops [])
      as [r Hr]; [symmetry; apply app_nil_r|].
    destruct (set_prop_extends ops _ r k_updatedAt (VStr iso) Hr) as [r' Hr'].
    eapply set_props_absorb; [|exact Hr'].
    apply set_prop_NoDup, set_props_NoDup, Hnd.
Qed.

Lemma strict_eq_str x s : strict_eq x (VStr s) = true <-> x = VStr s.
Proof.
  destruct x as [| |b|n|s'|l|ps]; cbn [strict_eq];
    try (split; discriminate).
  rewrite jstr_eqb_eq. split; [intros ->; reflexivity|].
  intros [= ->]. reflexivity.
Qed.

Lemma arr_map_one (id : value) (f : value -> value) (all : list value) :
  forall idx old,
    all !! idx = Some old ->
    (forall j n, all !! j = Some n -> id_is id n = Ok (Nat.eqb j idx)) ->
    arr_map (fun n => do b <- id_is id n; Ok (if b then f n else n)) all =
    Ok (<[idx := f old]> all) /\
    arr_findIndex (id_is id) all = Ok (Some idx).
Proof.
  induction all as [|x all IH]; intros idx old Hold H; [discriminate|].
  cbn [arr_map arr_findIndex]. rewrite (H 0%nat x eq_refl). cbn [bind].
  destruct idx as [|idx].
  - cbn in Hold. injection Hold as ->. cbn [Nat.eqb]. split; [|reflexivity].
    assert (arr_map (fun n => do b <- id_is id n; Ok (if b then f n else n))
              all = Ok all) as ->.
    { assert (forall j n, all !! j = Some n -> id_is id n = Ok false) as H'
        by (intros j n Hj; exact (H (S j) n Hj)).
      clear IH H. induction all as [|y all IH]; [reflexivity|].
      cbn [arr_map]. rewrite (H' 0%nat y eq_refl). cbn [bind].
      rewrite IH; [reflexivity|]. intros j n Hj. exact (H' (S j) n Hj). }
    reflexivity.
  - cbn [Nat.eqb]. cbn in Hold.
    destruct (IH idx old Hold) as [-> ->];
      [intros j n Hj; exact (H (S j) n Hj)|].
    split; reflexivity.
Qed.







(** X19: two edits of different fields of the active note that come less
    than 500 ms apart reach [doSave] as one call only, made 500 ms after
    the second edit with the patch of the second field alone; the value
    typed into the first field is in no call, and the update then made
    leaves that field of the stored note as it was. *)
Theorem second_field_edit_drops_the_first (activeId v1 v2 : value)
        (f1 f2 : jstr) (t1 t2 T : Z) :
  truthy activeId = true ->
  f1 <> f2 ->
  t1 <= t2 < t1 + 500 ->
  t2 + 500 <= T ->
  exists a1 a2,
    handleFieldChange activeId f1 v1 = Some a1 /\
    handleFieldChange activeId f2 v2 = Some a2 /\
    Debounce.invoked
      (Debounce.advance T
         (Debounce.run save_wait [(t1, a1); (t2, a2)]
            (Debounce.init (value * value)))) =
    [(t2 + 500, (activeId, VObj [(f2, v2)]))] /\
    lookup_prop (own_props (snd a2)) f1 = None /\
    forall (API_BASE : jstr) (fetch : Request -> result Response)
           (Date_parse : value -> option Z) (now : Z) (st st' : Storage)
           (all : list value) (idx : nat) (ops : list (jstr * value)),
      isBackendConfigured API_BASE = false ->
      lsReadAll st = (Ok (VArr all), st') ->
      arr_findIndex (id_is activeId) all = Ok (Some idx) ->
      all !! idx = Some (VObj ops) ->
      f1 <> k_updatedAt ->
      exists updated st1,
        updateNote API_BASE fetch Date_parse now activeId (snd a2) st =
        (Ok updated, st1) /\
        get updated f1 = get (VObj ops) f1.
Proof.
  intros Ha Hf Ht HT. unfold handleFieldChange. rewrite Ha.
  eexists. eexists. split; [reflexivity|]. split; [reflexivity|].
  split; [|split].
  - change (Debounce.run save_wait
              [(t1, (activeId, VObj [(f1, v1)]));
               (t2, (activeId, VObj [(f2, v2)]))]
              (Debounce.init (value * value)))
      with (Debounce.run save_wait [(t2, (activeId, VObj [(f2, v2)]))]
              (Debounce.call save_wait (Debounce.init (value * value))
                 (t1, (activeId, VObj [(f1, v1)])))).
    destruct (call_armed _ save_wait (Debounce.init (value * value))
                (t1, (activeId, VObj [(f1, v1)]))) as [Harm Hinv];
      [left; reflexivity|].
    rewrite (run_armed _ save_wait _ _ _ T Harm), Hinv.
    cbn [fired fst snd Debounce.advance Debounce.init Debounce.pending
         Debounce.invoked Debounce.fire Debounce.wait_of save_wait app].
    change (Z.max 0 500) with 500.
    destruct (Z.leb_spec (t1 + 500) t2); [lia|].
    destruct (Z.leb_spec (t2 + 500) T); [reflexivity|lia].
  - cbn [snd own_props lookup_prop]. rewrite jstr_eqb_neq; [reflexivity|].
    intros E. apply Hf. symmetry. exact E.
  - intros API_BASE fetch Date_parse now st st' all idx ops Hl Hread Hidx
      Hold Hu. cbn [snd].
    eexists. eexists. split.
    + exact (updateNote_local API_BASE fetch Date_parse Hl now activeId
               (VObj [(f2, v2)]) st st' all idx (VObj ops) Hread Hidx Hold).
    + cbn [get]. rewrite merged_lookup.
      rewrite (jstr_eqb_neq k_updatedAt f1)
        by (intros E; apply Hu; symmetry; exact E).
      cbn [own_props lookup_prop].
      rewrite (jstr_eqb_neq f2 f1)
        by (intros E; apply Hf; symmetry; exact E).
      reflexivity.
Qed.

Lemma second_field_edit_drops_the_first_witness :
  exists a1 a2,
    handleFieldChange (VStr (js "a")) k_title (VStr (js "New title")) =
    Some a1 /\
    handleFieldChange (VStr (js "a")) k_content (VStr (js "body")) =
    Some a2 /\
    Debounce.invoked
      (Debounce.advance 1000
         (Debounce.run save_wait [(0, a1); (300, a2)]
            (Debounce.init (value * value)))) =
    [(800, (VStr (js "a"), VObj [(k_content, VStr (js "body"))]))].
Proof.
  destruct (second_field_edit_drops_the_first (VStr (js "a"))
              (VStr (js "New title")) (VStr (js "body")) k_title k_content
              0 300 1000 ltac:(reflexivity) ltac:(discriminate)
              ltac:(lia) ltac:(lia))
    as (a1 & a2 & H1 & H2 & H3 & _).
  exists a1, a2. repeat apply conj; assumption.
Defined.

